(** * tsbs: data-generation driver and TimescaleDB high-CPU query generator

    A shallow embedding of

    - [cmd/tsbs_generate_data/main.go]: flag post-processing, the
      configuration checks, the schema preamble of the TimescaleDB format and
      the round-robin generation loop [runSimulator];
    - [cmd/bulk_query_gen/timescaledb_devops_high_cpu.go]: the high-CPU
      query generator and its [Dispatch].

    Conventions.  Go's [uint] is taken at its width on 64-bit platforms and
    held in [N], with the wrap-around of [+] written out.  [[]byte] and
    [string] are both [string] (a sequence of 8-bit characters).  A Go
    interface is a type class; a call that mutates its receiver or an
    argument returns the new value next to its result.  [log.Fatalf] ends
    the process with status 1 without running deferred calls. *)

From Stdlib Require Import NArith ZArith Lia Ascii String DecimalString.
From stdpp Require Import base option list sorting strings gmap.

Local Open Scope string_scope.
Local Open Scope N_scope.

(** ** Package [serialize] *)

Module serialize.

(** Modelled from the spec: the [Point] struct of package [serialize] is not
    part of the sources at hand.  The spec gives a Point a timestamp, a
    measurement name, an ordered collection of tag key/value pairs and an
    ordered collection of field key/value pairs. *)
Record Point : Type := mkPoint {
  timestamp : option Z;
  measurementName : string;
  tags : list (string * string);
  fields : list (string * string)
}.

(** Modelled from the spec: a freshly constructed Point is empty. *)
Definition NewPoint : Point :=
  {| timestamp := None; measurementName := ""; tags := []; fields := [] |}.

(** Modelled from the spec: [Reset] puts the buffer back into the empty
    state, whatever it held. *)
Definition Reset (p : Point) : Point :=
  {| timestamp := None; measurementName := ""; tags := []; fields := [] |}.

(** [PointSerializer] interface: [Serialize(p *Point, w io.Writer) error].
    [T] is the serializer, [W] the state of the sink it writes to; the
    result is the sink after the call and the error, if any. *)
Class PointSerializer (T W : Type) := {
  Serialize : T -> Point -> W -> W * option string
}.

(** The four serializer structs that [getSerializer] can return. *)
Inductive serializer : Type :=
| CassandraSerializer
| InfluxSerializer
| MongoSerializer
| TimescaleDBSerializer.

End serialize.

(** ** Package [common] *)

Module common.
Import serialize.

(** [Simulator] interface.  [Next] advances the simulator, fills the Point
    it is handed and tells whether a record was produced. *)
Class Simulator (S : Type) := {
  Finished : S -> bool;
  Next : S -> Point -> S * Point * bool;
  Fields : S -> gmap string (list string)
}.

End common.

Import serialize common.

(** ** [cmd/tsbs_generate_data/main.go] *)

(** *** Constants *)

Definition formatCassandra : string := "cassandra".
Definition formatInflux : string := "influx".
Definition formatMongo : string := "mongo".
Definition formatTimescaleDB : string := "timescaledb".

Definition useCaseCPUOnly : string := "cpu-only".
Definition useCaseCPUSingle : string := "cpu-single".
Definition useCaseDevops : string := "devops".

Definition formatChoices : list string :=
  [formatCassandra; formatInflux; formatMongo; formatTimescaleDB].

(** The use cases that [getConfig] knows. *)
Definition useCaseChoices : list string :=
  [useCaseDevops; useCaseCPUOnly; useCaseCPUSingle].

(** *** [uint] arithmetic *)

Definition uintModulus : N := 2 ^ 64.

Definition is_uint (n : N) : Prop := n < uintModulus.

(** [a + b] on [uint]. *)
Definition uint_add (a b : N) : N := (a + b) mod uintModulus.

(** [a % b] on [uint]; a zero divisor is a run-time panic. *)
Definition uint_rem (a b : N) : option N :=
  if b =? 0 then None else Some (a mod b).

(** *** [fmt] verbs used by the messages *)

(** [%d] of an unsigned integer. *)
Definition fmt_d (n : N) : string := NilZero.string_of_uint (N.to_uint n).

(** [%v] of a [[]string]: the elements between brackets, separated by a
    space. *)
Definition fmt_v_strings (l : list string) : string :=
  "[" ++ String.concat " " l ++ "]".

Definition errTotalGroupsZero : string :=
  "incorrect interleaved groups configuration: total groups = 0".

(** [fmt.Sprintf(errInvalidGroupsFmt, groupID, totalGroups)]. *)
Definition errInvalidGroups (groupID totalGroups : N) : string :=
  "incorrect interleaved groups configuration: id " ++ fmt_d groupID
  ++ " >= total groups " ++ fmt_d totalGroups.

(** [fmt.Sprintf(errInvalidFormatFmt, format, formatChoices)]. *)
Definition errInvalidFormat (format : string) : string :=
  "invalid format specifier: " ++ format ++ " (valid choices: "
  ++ fmt_v_strings formatChoices ++ ")".

Definition errUnknownUseCase (useCase : string) : string :=
  "unknown use case: '" ++ useCase ++ "'".

Definition errUnknownFormat (format : string) : string :=
  "unknown format: '" ++ format ++ "'".

Definition errDivideByZero : string :=
  "runtime error: integer divide by zero".

(** *** Validation *)

(** [validateGroups]: the pair of the Go function, [(bool, error)]. *)
Definition validateGroups (groupID totalGroups : N) : bool * option string :=
  if totalGroups =? 0 then (false, Some errTotalGroupsZero)
  else if totalGroups <=? groupID then
    (false, Some (errInvalidGroups groupID totalGroups))
  else (true, None).

(** The loop body of [validateFormat] over a slice of choices. *)
Fixpoint validateFormat_in (choices : list string) (format : string) : bool :=
  match choices with
  | [] => false
  | s :: rest => if String.eqb s format then true
                 else validateFormat_in rest format
  end.

Definition validateFormat (format : string) : bool :=
  validateFormat_in formatChoices format.

(** *** The generation loop *)

(** How a call that may end the process comes back. *)
Inductive Ending (W : Type) : Type :=
| Returned (out : W)                 (* normal return *)
| Fatal (msg : string) (out : W)     (* [fatal]: message, exit status 1 *)
| Panic (msg : string) (out : W).    (* run-time panic *)
Arguments Returned {W} out.
Arguments Fatal {W} msg out.
Arguments Panic {W} msg out.

(** The exit status of the process: 0 on a normal return, 1 after
    [log.Fatalf], 2 after a panic. *)
Definition exitStatus {W : Type} (e : Ending W) : Z :=
  match e with
  | Returned _ => 0
  | Fatal _ _ => 1
  | Panic _ _ => 2
  end.

(** The sink as the call left it. *)
Definition written {W : Type} (e : Ending W) : W :=
  match e with
  | Returned out | Fatal _ out | Panic _ out => out
  end.

(** The sink of a call that returned normally. *)
Definition returned {W : Type} (e : option (Ending W)) : option W :=
  match e with
  | Some (Returned out) => Some out
  | _ => None
  end.

Section RunSimulator.
Context {S T W : Type} `{!Simulator S} `{!PointSerializer T W}.

(** The variables of [runSimulator] that live across iterations. *)
Record Loop : Type := mkLoop {
  sim : S;
  point : Point;
  currGroup : N;
  out : W
}.

Inductive Step : Type :=
| Continue (st : Loop)
| Stop (e : Ending W).

(** One pass through [for !sim.Finished() { ... }]: the loop condition and
    the body. *)
Definition iteration (serializer : T) (groupID totalGroups : N)
    (st : Loop) : Step :=
  if Finished (sim st) then Stop (Returned (out st))
  else
    let '(sim', point', write) := Next (sim st) (point st) in
    if negb write then
      Continue {| sim := sim'; point := Reset point';
                  currGroup := currGroup st; out := out st |}
    else
      let '(out', err) :=
        if currGroup st =? groupID
        then Serialize serializer point' (out st)
        else (out st, None) in
      match err with
      | Some e => Stop (Fatal e out')
      | None =>
          let point'' := Reset point' in
          match uint_rem (uint_add (currGroup st) 1) totalGroups with
          | None => Stop (Panic errDivideByZero out')
          | Some g =>
              Continue {| sim := sim'; point := point'';
                          currGroup := g; out := out' |}
          end
      end.

(** The loop, cut off after [fuel] passes: [None] when the simulator has
    not finished by then. *)
Fixpoint loop (fuel : nat) (serializer : T) (groupID totalGroups : N)
    (st : Loop) : option (Ending W) :=
  match fuel with
  | O => None
  | Datatypes.S fuel' =>
      match iteration serializer groupID totalGroups st with
      | Stop e => Some e
      | Continue st' => loop fuel' serializer groupID totalGroups st'
      end
  end.

Definition runSimulator (fuel : nat) (sim0 : S) (serializer : T) (out0 : W)
    (groupID totalGroups : N) : option (Ending W) :=
  loop fuel serializer groupID totalGroups
    {| sim := sim0; point := NewPoint; currGroup := 0; out := out0 |}.

End RunSimulator.
Arguments Loop : clear implicits.
Arguments Step : clear implicits.

(** *** Buffered output

    [out] is a [*bufio.Writer] over standard output.  It is held as the
    bytes it has accepted so far, in order; the code at hand drops the
    results of [WriteString] and [Write].  On a normal return the deferred
    [Flush] hands all of them to standard output; after [fatal] only the
    part that the writer had already passed on has reached it. *)

Definition Writer : Type := string.

Definition NewWriter : Writer := "".

Definition WriteString (out : Writer) (s : string) : Writer := out ++ s.

(** The line feed, ["\n"]. *)
Definition nl : string := String "010"%char "".

(** A call that may end in [fatal]. *)
Inductive Res (A : Type) : Type :=
| Ok (a : A)
| Die (msg : string).
Arguments Ok {A} a.
Arguments Die {A} msg.

(** *** Simulator configurations (package [devops]) *)

Inductive HostConstructor : Type :=
| NewHost
| NewHostCPUOnly
| NewHostCPUSingle.

(** The fields shared by [DevopsSimulatorConfig] and
    [CPUOnlySimulatorConfig]. *)
Record ConfigFields (Time : Type) : Type := mkConfigFields {
  Start : Time;
  End_ : Time;
  InitHostCount : N;
  HostCount : N;
  HostCtor : HostConstructor
}.
Arguments mkConfigFields {Time}.
Arguments Start {Time}.
Arguments End_ {Time}.
Arguments InitHostCount {Time}.
Arguments HostCount {Time}.
Arguments HostCtor {Time}.

Inductive SimulatorConfig (Time : Type) : Type :=
| DevopsSimulatorConfig (f : ConfigFields Time)
| CPUOnlySimulatorConfig (f : ConfigFields Time).
Arguments DevopsSimulatorConfig {Time} f.
Arguments CPUOnlySimulatorConfig {Time} f.

(** *** What the program takes from other packages

    The packages [devops] and [serialize] and the standard library calls
    are not part of the sources at hand; they come in as one structure. *)
Class Externals : Type := {
  Time : Type;
  (** [time.Parse(time.RFC3339, s)], then [UTC()]; [inr] carries the parse
      error. *)
  parseRFC3339 : string -> Time + string;
  (** [devops.MachineTagKeys]. *)
  MachineTagKeys : list string;
  SimState : Type;
  SimState_Simulator :: Simulator SimState;
  (** Modelled from the spec: [cfg.ToSimulator(logInterval)] draws from the
      global generator, which [rand.Seed(seed)] has just seeded; the spec
      makes the simulator a function of the seed and the configuration
      alone.  The arguments are [cfg], [logInterval] and the seed. *)
  ToSimulator : SimulatorConfig Time -> Z -> Z -> SimState;
  serializer_PointSerializer :: PointSerializer serializer Writer
}.

(** *** Flags and program option variables *)

Record parseableFlagVars : Type := mkParseableFlagVars {
  timestampStartStr : string;
  timestampEndStr : string;
  flag_seed : Z;
  flag_initScaleVar : N
}.

(** The command line as [init] reads it. *)
Record Flags : Type := mkFlags {
  pfv : parseableFlagVars;
  flag_format : string;
  flag_useCase : string;
  flag_profileFile : string;
  flag_scaleVar : N;
  flag_debug : Z;
  flag_groupID : N;
  flag_groups : N;
  flag_logInterval : Z
}.

(** The program option variables once [init] is done. *)
Record Options `{Externals} : Type := mkOptions {
  format : string;
  useCase : string;
  profileFile : string;
  initScaleVar : N;
  scaleVar : N;
  seed : Z;
  debug : Z;
  timestampStart : Time;
  timestampEnd : Time;
  interleavedGenerationGroupID : N;
  interleavedGenerationGroups : N;
  logInterval : Z
}.

(** What a run takes from its surroundings. *)
Record Env : Type := mkEnv {
  (** [time.Now().Nanosecond()] *)
  nowNanosecond : Z;
  (** the error of [os.Create(profileFile)], if any *)
  createProfile : option string;
  (** the order in which [range] walks a map; Go leaves it open *)
  rangeOrder : gmap string (list string) -> list string
}.

(** [rangeOrder] visits each key of the map once. *)
Definition range_ok (env : Env) : Prop :=
  forall m : gmap string (list string), rangeOrder env m ≡ₚ elements (dom m).

Section Program.
Context `{Externals}.

Definition parseTimeFromString (s : string) : Res Time :=
  match parseRFC3339 s with
  | inr err => Die err
  | inl t => Ok t
  end.

(** [init], after [flag.Parse]: [postFlagParse] with the assignments the
    flag package has made. *)
Definition postFlagParse (env : Env) (fl : Flags) : Res Options :=
  let initScaleVar' :=
    if flag_initScaleVar (pfv fl) =? 0 then flag_scaleVar fl
    else flag_initScaleVar (pfv fl) in
  let seed' :=
    if (flag_seed (pfv fl) =? 0)%Z then nowNanosecond env
    else flag_seed (pfv fl) in
  match parseTimeFromString (timestampStartStr (pfv fl)) with
  | Die msg => Die msg
  | Ok tstart =>
      match parseTimeFromString (timestampEndStr (pfv fl)) with
      | Die msg => Die msg
      | Ok tend =>
          Ok {| format := flag_format fl;
                useCase := flag_useCase fl;
                profileFile := flag_profileFile fl;
                initScaleVar := initScaleVar';
                scaleVar := flag_scaleVar fl;
                seed := seed';
                debug := flag_debug fl;
                timestampStart := tstart;
                timestampEnd := tend;
                interleavedGenerationGroupID := flag_groupID fl;
                interleavedGenerationGroups := flag_groups fl;
                logInterval := flag_logInterval fl |}
      end
  end.

Definition configFields (o : Options) (c : HostConstructor)
    : ConfigFields Time :=
  {| Start := timestampStart o; End_ := timestampEnd o;
     InitHostCount := initScaleVar o; HostCount := scaleVar o;
     HostCtor := c |}.

Definition getConfig (o : Options) (useCase : string)
    : Res (SimulatorConfig Time) :=
  if String.eqb useCase useCaseDevops then
    Ok (DevopsSimulatorConfig (configFields o NewHost))
  else if String.eqb useCase useCaseCPUOnly then
    Ok (CPUOnlySimulatorConfig (configFields o NewHostCPUOnly))
  else if String.eqb useCase useCaseCPUSingle then
    Ok (CPUOnlySimulatorConfig (configFields o NewHostCPUSingle))
  else Die (errUnknownUseCase useCase).

(** [sort.Strings]: ascending in the byte-wise order of Go strings.  Any
    sort gives the same slice, as the order is total and antisymmetric. *)
Definition sort_Strings (keys : list string) : list string :=
  merge_sort String.le keys.

(** [for _, x := range xs { out.WriteString(","); out.Write(x) }] *)
Definition writeCommaSeparated (out : Writer) (xs : list string) : Writer :=
  fold_left (fun o x => WriteString (WriteString o ",") x) xs out.

(** The lines of the measurements, in the order of [keys]; a key that the
    map lacks reads as the nil slice. *)
Definition writeMeasurements (fields : gmap string (list string))
    (out : Writer) (keys : list string) : Writer :=
  fold_left
    (fun o measurementName =>
       WriteString
         (writeCommaSeparated (WriteString o measurementName)
            (default [] (fields !! measurementName)))
         nl)
    keys out.

(** [getSerializer]; [order] is the order in which [range fields] yields
    the keys. *)
Definition getSerializer (sim : SimState) (format : string) (out : Writer)
    (order : gmap string (list string) -> list string)
    : Res (serializer * Writer) :=
  if String.eqb format formatCassandra then Ok (CassandraSerializer, out)
  else if String.eqb format formatInflux then Ok (InfluxSerializer, out)
  else if String.eqb format formatMongo then Ok (MongoSerializer, out)
  else if String.eqb format formatTimescaleDB then
    let out1 := WriteString out "tags" in
    let out2 := writeCommaSeparated out1 MachineTagKeys in
    let out3 := WriteString out2 nl in
    let fields := Fields sim in
    let keys := fold_left (fun ks k => ks ++ [k])%list (order fields) [] in
    let keys := sort_Strings keys in
    let out4 := writeMeasurements fields out3 keys in
    let out5 := WriteString out4 nl in
    Ok (TimescaleDBSerializer, out5)
  else Die (errUnknownFormat format).

(** [main].  The signal handler of the memory profile and the writing of
    the profile at exit are left out; neither writes to [out]. *)
Definition main (fuel : nat) (env : Env) (o : Options)
    : option (Ending Writer) :=
  match validateGroups (interleavedGenerationGroupID o)
          (interleavedGenerationGroups o) with
  | (false, Some err) => Some (Fatal err NewWriter)
  | (false, None) =>
      Some (Panic "runtime error: invalid memory address or nil pointer dereference" NewWriter)
  | (true, _) =>
      if negb (validateFormat (format o)) then
        Some (Fatal (errInvalidFormat (format o)) NewWriter)
      else
        match (if String.eqb (profileFile o) "" then None
               else createProfile env) with
        | Some err =>
            Some (Fatal ("could not create memory profile: " ++ err)
                    NewWriter)
        | None =>
            let out := NewWriter in
            match getConfig o (useCase o) with
            | Die msg => Some (Fatal msg out)
            | Ok cfg =>
                let sim := ToSimulator cfg (logInterval o) (seed o) in
                match getSerializer sim (format o) out (rangeOrder env) with
                | Die msg => Some (Fatal msg out)
                | Ok (serializer, out') =>
                    runSimulator fuel sim serializer out'
                      (interleavedGenerationGroupID o)
                      (interleavedGenerationGroups o)
                end
            end
        end
  end.

(** A whole run of the process: [init], then [main]. *)
Definition program (fuel : nat) (env : Env) (fl : Flags)
    : option (Ending Writer) :=
  match postFlagParse env fl with
  | Die msg => Some (Fatal msg NewWriter)
  | Ok o => main fuel env o
  end.

(** The configuration errors: no group at all, a group id that is not
    below the number of groups, a format or a use case that is not among
    the choices. *)
Definition invalid_config (o : Options) : Prop :=
  interleavedGenerationGroups o = 0
  \/ interleavedGenerationGroups o <= interleavedGenerationGroupID o
  \/ format o ∉ formatChoices
  \/ useCase o ∉ useCaseChoices.

End Program.

(** *** The schema preamble, as one string *)

Definition strcat (l : list string) : string := foldr String.append "" l.

(** Each element with a comma before it. *)
Definition commaSeparated (xs : list string) : string :=
  strcat ((fun x => "," ++ x) <$> xs).

(** The line of one measurement: its name, its field names in the order
    of the map entry, a line feed. *)
Definition measurementLine (fields : gmap string (list string))
    (name : string) : string :=
  name ++ commaSeparated (default [] (fields !! name)) ++ nl.

(** The header line of the tags, the lines of the measurements [names] and
    an empty line. *)
Definition preamble (tagKeys : list string)
    (fields : gmap string (list string)) (names : list string) : string :=
  ("tags" ++ commaSeparated tagKeys ++ nl)
  ++ strcat (measurementLine fields <$> names)
  ++ nl.

(** ** [cmd/bulk_query_gen/timescaledb_devops_high_cpu.go] *)

Module bulk_query_gen.

(** What the file takes from the rest of its package, none of which is
    part of the sources at hand.  A [Query] is handled through a
    reference [QueryRef] into the mutable state [World] of the process
    (the pooled query objects and the global random generator). *)
Class Externals : Type := {
  DatabaseConfig : Type;
  Time : Type;
  (** the struct [TimescaleDBDevops] *)
  TimescaleDBDevops : Type;
  (** dynamic types of [QueryGenerator] other than the two below *)
  OtherGenerator : Type;
  World : Type;
  QueryRef : Type;
  (** [NewTimescaleDBQuery()]: a query object out of the pool. *)
  NewTimescaleDBQuery : World -> QueryRef * World;
  (** The method [HighCPUForHosts(q, scaleVar, nhosts)] of
      [TimescaleDBDevops], here with its receiver first: fills
      the object behind [q]; the receiver may change as well. *)
  HighCPUForHosts :
    TimescaleDBDevops -> QueryRef -> Z -> Z -> World ->
    TimescaleDBDevops * World
}.

Section Generator.
Context `{Externals}.

Record TimescaleDBDevopsHighCPU : Type := mkHighCPU {
  embedded : TimescaleDBDevops;   (* the embedded [TimescaleDBDevops] *)
  hosts : Z
}.

(** A value of interface type [QueryGenerator], by dynamic type. *)
Inductive QueryGenerator : Type :=
| PtrTimescaleDBDevops (d : TimescaleDBDevops)
| PtrTimescaleDBDevopsHighCPU (d : TimescaleDBDevopsHighCPU)
| PtrOther (g : OtherGenerator).

(** [NewTimescaleDBDevopsHighCPU(hosts)], applied to the arguments of the
    function it returns.  [common] is [newTimescaleDBDevopsCommon];
    [None] is the panic of the type assertion of its result to
    a pointer to [TimescaleDBDevops]. *)
Definition NewTimescaleDBDevopsHighCPU
    (common : DatabaseConfig -> Time -> Time -> QueryGenerator)
    (hosts : Z) (dbConfig : DatabaseConfig) (start end_ : Time)
    : option QueryGenerator :=
  match common dbConfig start end_ with
  | PtrTimescaleDBDevops underlying =>
      Some (PtrTimescaleDBDevopsHighCPU
              {| embedded := underlying; hosts := hosts |})
  | _ => None
  end.

(** [Dispatch]: the query, the receiver and the world after the call. *)
Definition Dispatch (d : TimescaleDBDevopsHighCPU) (_ scaleVar : Z)
    (w : World) : QueryRef * TimescaleDBDevopsHighCPU * World :=
  let '(q, w1) := NewTimescaleDBQuery w in
  let '(u, w2) := HighCPUForHosts (embedded d) q scaleVar (hosts d) w1 in
  (q, {| embedded := u; hosts := hosts d |}, w2).

End Generator.

End bulk_query_gen.

(** ** Reference notions for the generation loop *)

Section Simulate.
Context {S : Type} `{!Simulator S}.

(** The simulator on its own, driven until it reports that it has
    finished: one entry per call of [Next], with the flag that the call
    returned and the Point as the call left it.  [p] is the buffer handed
    to the first call; each later call gets the buffer of the call before
    it, reset.  [None]: not finished within [fuel] calls. *)
Fixpoint simulate (fuel : nat) (s : S) (p : Point)
    : option (list (bool * Point)) :=
  match fuel with
  | O => None
  | Datatypes.S fuel' =>
      if Finished s then Some []
      else
        let '(s', p', write) := Next s p in
        cons (write, p') <$> simulate fuel' s' (Reset p')
  end.

End Simulate.

(** The produced records of a run of the simulator, in generation order. *)
Definition produced (tr : list (bool * Point)) : list Point :=
  (filter (fun e : bool * Point => e.1 = true) tr).*2.

(** The elements of [recs] whose zero-based index [i] has
    [i mod totalGroups = groupID], in the order of [recs]. *)
Definition owned {A : Type} (groupID totalGroups : N) (recs : list A)
    : list A :=
  (filter (fun e : nat * A => N.of_nat e.1 mod totalGroups = groupID)
     (imap pair recs)).*2.

(** [owned], with the index of the first element given. *)
Fixpoint owned_from {A : Type} (k : nat) (groupID totalGroups : N)
    (recs : list A) : list A :=
  match recs with
  | [] => []
  | x :: rest =>
      if N.of_nat k mod totalGroups =? groupID
      then x :: owned_from (Datatypes.S k) groupID totalGroups rest
      else owned_from (Datatypes.S k) groupID totalGroups rest
  end.

Section SerializeAll.
Context {T W : Type} `{!PointSerializer T W}.

(** The records of [recs] handed to the serializer one after the other,
    up to the first one that fails. *)
Fixpoint serialize_all (serializer : T) (recs : list Point) (out : W)
    : Ending W :=
  match recs with
  | [] => Returned out
  | p :: rest =>
      match Serialize serializer p out with
      | (out', Some e) => Fatal e out'
      | (out', None) => serialize_all serializer rest out'
      end
  end.

End SerializeAll.

Section Reachable.
Context {S T W : Type} `{!Simulator S} `{!PointSerializer T W}.

(** The states in which a pass through the loop of [runSimulator] can
    start, counted from the state [st0]. *)
Inductive reaches (serializer : T) (groupID totalGroups : N)
    (st0 : Loop S W) : Loop S W -> Prop :=
| reaches_start : reaches serializer groupID totalGroups st0 st0
| reaches_next st st' :
    reaches serializer groupID totalGroups st0 st ->
    iteration serializer groupID totalGroups st = Continue st' ->
    reaches serializer groupID totalGroups st0 st'.

End Reachable.

(** ** Small instances of the interfaces *)

(** A simulator that plays a script: one entry per call of [Next], [None]
    for a call that produces no record; it is finished when the script is
    used up.  [schema] is what [Fields] returns. *)
Record Scripted : Type := mkScripted {
  script : list (option Point);
  schema : gmap string (list string)
}.

#[export] Instance Scripted_Simulator : Simulator Scripted := {|
  Finished s := match script s with [] => true | _ => false end;
  Next s p :=
    match script s with
    | [] => (s, p, false)
    | None :: rest => ({| script := rest; schema := schema s |}, p, false)
    | Some r :: rest => ({| script := rest; schema := schema s |}, r, true)
    end;
  Fields s := schema s
|}.

(** Modelled from the spec: a serializer writes exactly one encoded record
    per call.  Here the sink is the list of the records written so far,
    the serializer is its encoding function, and no write fails. *)
#[export] Instance RecordLog (R : Type)
    : PointSerializer (Point -> R) (list R) := {|
  Serialize encode p out := ((out ++ [encode p])%list, None)
|}.

(** A serializer into a [Writer]: the measurement name and a line feed.  A
    point without a name is an error, and nothing is written for it. *)
Definition serializeLine (p : Point) (out : Writer) : Writer * option string :=
  if String.eqb (measurementName p) "" then (out, Some "empty measurement")
  else (WriteString (WriteString out (measurementName p)) nl, None).

Definition Line_PointSerializer : PointSerializer serializer Writer :=
  {| Serialize _ := serializeLine |}.

Definition named (name : string) : Point :=
  {| timestamp := None; measurementName := name; tags := []; fields := [] |}.

(** The externals with the scripted simulator: the script has one record
    named after the seed, and the time is kept as its text. *)
Definition ScriptedExternals : Externals := {|
  Time := string;
  parseRFC3339 s := if String.eqb s "" then inr "cannot parse" else inl s;
  MachineTagKeys := ["hostname"; "region"];
  SimState := Scripted;
  ToSimulator cfg logInterval seed :=
    {| script := [Some (named "cpu"); None;
                  Some (named (fmt_d (Z.to_N seed)))];
       schema := {[ "mem" := ["used"; "free"] ]} ∪ {[ "cpu" := ["usage_user"] ]} |};
  serializer_PointSerializer := Line_PointSerializer
|}.

(** A script of six calls, four of which produce a record. *)
Definition sc : Scripted :=
  {| script := [Some (named "a"); None; Some (named "b"); Some (named "c");
                None; Some (named "d")];
     schema := ∅ |}.

(** Two surroundings that differ in the clock and in the order of [range]. *)
Definition envA : Env :=
  {| nowNanosecond := 5; createProfile := None;
     rangeOrder := fun m => elements (dom m) |}.

Definition envB : Env :=
  {| nowNanosecond := 77; createProfile := Some "permission denied";
     rangeOrder := fun m => reverse (elements (dom m)) |}.

(** A command line with the given seed, format, use case and groups; the
    other flags are fixed. *)
Definition flagsOf (seed : Z) (format useCase : string) (groupID groups : N)
    : Flags :=
  {| pfv := {| timestampStartStr := "2016-01-01T00:00:00Z";
               timestampEndStr := "2016-01-01T00:01:00Z";
               flag_seed := seed; flag_initScaleVar := 0 |};
     flag_format := format; flag_useCase := useCase;
     flag_profileFile := ""; flag_scaleVar := 1; flag_debug := 0;
     flag_groupID := groupID; flag_groups := groups;
     flag_logInterval := 10000000000 |}.

(** The options that [init] leaves for [flagsOf 42 format useCase groupID
    groups]. *)
Definition optionsOf (format useCase : string) (groupID groups : N)
    : @Options ScriptedExternals :=
  @mkOptions ScriptedExternals format useCase "" 1 1 42 0
    "2016-01-01T00:00:00Z" "2016-01-01T00:01:00Z" groupID groups 10000000000.

(** Externals of the query generator for small runs: the world is the list
    of the query objects, a reference is an index into it, the pool hands
    out a new object at the end, and the builder writes a line into the
    object it is given. *)
Definition ListQueries : bulk_query_gen.Externals := {|
  bulk_query_gen.DatabaseConfig := string;
  bulk_query_gen.Time := Z;
  bulk_query_gen.TimescaleDBDevops := string * Z * Z;
  bulk_query_gen.OtherGenerator := unit;
  bulk_query_gen.World := list string;
  bulk_query_gen.QueryRef := nat;
  bulk_query_gen.NewTimescaleDBQuery w := (length w, (w ++ [""])%list);
  bulk_query_gen.HighCPUForHosts d q scaleVar nhosts w :=
    (d, <[q := "high cpu, " ++ fmt_d (Z.to_N nhosts) ++ " of "
               ++ fmt_d (Z.to_N scaleVar) ++ " hosts"]> w)
|}.

(** ** Further notions *)

(** A format string without a verb: it has no ["%"], so [Fatalf] and
    [Errorf] print it as it is. *)
Fixpoint verbFree (s : string) : bool :=
  match s with
  | EmptyString => true
  | String c rest => negb (Ascii.eqb c "%") && verbFree rest
  end.

(** The command line [fl] with [-seed] set to [s]. *)
Definition withSeed (fl : Flags) (s : Z) : Flags :=
  {| pfv := {| timestampStartStr := timestampStartStr (pfv fl);
               timestampEndStr := timestampEndStr (pfv fl);
               flag_seed := s;
               flag_initScaleVar := flag_initScaleVar (pfv fl) |};
     flag_format := flag_format fl; flag_useCase := flag_useCase fl;
     flag_profileFile := flag_profileFile fl;
     flag_scaleVar := flag_scaleVar fl; flag_debug := flag_debug fl;
     flag_groupID := flag_groupID fl; flag_groups := flag_groups fl;
     flag_logInterval := flag_logInterval fl |}.

(** The command line [fl] with [-initial-scale-var] set to [v]. *)
Definition withInitScaleVar (fl : Flags) (v : N) : Flags :=
  {| pfv := {| timestampStartStr := timestampStartStr (pfv fl);
               timestampEndStr := timestampEndStr (pfv fl);
               flag_seed := flag_seed (pfv fl);
               flag_initScaleVar := v |};
     flag_format := flag_format fl; flag_useCase := flag_useCase fl;
     flag_profileFile := flag_profileFile fl;
     flag_scaleVar := flag_scaleVar fl; flag_debug := flag_debug fl;
     flag_groupID := flag_groupID fl; flag_groups := flag_groups fl;
     flag_logInterval := flag_logInterval fl |}.

Section Dispatched.
Context `{bulk_query_gen.Externals}.

(** The generator and the world after some calls of [Dispatch] on the
    generator [d0] from the world [w0], with any arguments. *)
Inductive dispatched (d0 : bulk_query_gen.TimescaleDBDevopsHighCPU)
    (w0 : bulk_query_gen.World)
    : bulk_query_gen.TimescaleDBDevopsHighCPU -> bulk_query_gen.World -> Prop :=
| dispatched_none : dispatched d0 w0 d0 w0
| dispatched_call d w (a scaleVar : Z) :
    dispatched d0 w0 d w ->
    dispatched d0 w0 (bulk_query_gen.Dispatch d a scaleVar w).1.2
      (bulk_query_gen.Dispatch d a scaleVar w).2.

End Dispatched.

(** A command line on which nothing is right: the time stamps do not
    parse, there is no group, and the format and the use case are not among
    the choices. *)
Definition badStart : Flags :=
  {| pfv := {| timestampStartStr := ""; timestampEndStr := "";
               flag_seed := 1; flag_initScaleVar := 0 |};
     flag_format := "csv"; flag_useCase := ""; flag_profileFile := "";
     flag_scaleVar := 1; flag_debug := 0; flag_groupID := 0;
     flag_groups := 0; flag_logInterval := 0 |}.

(** The high-CPU generator for 8 hosts over the small externals. *)
Definition eightHosts : @bulk_query_gen.TimescaleDBDevopsHighCPU ListQueries :=
  @bulk_query_gen.mkHighCPU ListQueries ("db", 0%Z, 60%Z) 8%Z.

(** * Properties *)

(** ** Lists of owned records *)

Lemma owned_from_shift {A : Type} (g n : N) (recs : list A) (k : nat) :
  (filter (fun e : nat * A => N.of_nat e.1 mod n = g)
     (imap (fun i x => ((k + i)%nat, x)) recs)).*2
  = owned_from k g n recs.
Proof.
  revert k. induction recs as [|x rest IH]; intros k; [reflexivity|].
  cbn [imap owned_from].
  rewrite (imap_ext _ (fun i x => ((Datatypes.S k + i)%nat, x))).
  2:{ intros i y _. cbn. f_equal. lia. }
  rewrite filter_cons. cbn [fst].
  replace (k + 0)%nat with k by lia.
  destruct (N.eqb_spec (N.of_nat k mod n) g) as [E|E].
  - rewrite decide_True by done. rewrite fmap_cons. f_equal.
    exact (IH (Datatypes.S k)).
  - rewrite decide_False by done. exact (IH (Datatypes.S k)).
Qed.

Lemma owned_owned_from {A : Type} (g n : N) (recs : list A) :
  owned g n recs = owned_from 0 g n recs.
Proof. apply (owned_from_shift g n recs 0). Qed.

Lemma owned_snoc {A : Type} (g n : N) (recs : list A) (x : A) :
  owned g n (recs ++ [x])
  = (owned g n recs
     ++ (if N.of_nat (length recs) mod n =? g then [x] else []))%list.
Proof.
  unfold owned. rewrite imap_app, filter_app, fmap_app. f_equal.
  cbn [imap]. rewrite filter_cons, filter_nil. cbn [fst].
  replace (length recs + 0)%nat with (length recs) by lia.
  destruct (N.eqb_spec (N.of_nat (length recs) mod n) g).
  - by rewrite decide_True.
  - by rewrite decide_False.
Qed.

(** With one group, group 0 owns every record. *)
Lemma owned_whole {A : Type} (recs : list A) : owned 0 1 recs = recs.
Proof.
  induction recs as [|x recs IH] using rev_ind; [reflexivity|].
  rewrite owned_snoc, IH, N.mod_1_r. reflexivity.
Qed.

Lemma concat_fmap_app {A B : Type} (f h : A -> list B) (l : list A) :
  concat ((fun a => f a ++ h a)%list <$> l)
  ≡ₚ (concat (f <$> l) ++ concat (h <$> l))%list.
Proof.
  induction l as [|a l IH]; [reflexivity|].
  cbn. rewrite IH. solve_Permutation.
Qed.

Lemma concat_single_hit {B : Type} (y : B) (k len start : nat) :
  concat ((fun g : nat => if (g =? k)%nat then [y] else []) <$> seq start len)
  = if decide (start <= k < start + len)%nat then [y] else [].
Proof.
  revert start. induction len as [|len IH]; intros start.
  - cbn. case_decide; [lia|done].
  - cbn [seq fmap list_fmap concat]. rewrite IH.
    destruct (Nat.eqb_spec start k) as [->|Hne].
    + rewrite decide_False by lia. rewrite decide_True by lia. done.
    + cbn [app]. repeat case_decide; try done; lia.
Qed.

(** The groups [0 .. n-1] together own every record once. *)
Lemma concat_owned {A : Type} (n : N) (recs : list A) :
  0 < n ->
  concat ((fun g : nat => owned (N.of_nat g) n recs) <$> seq 0 (N.to_nat n))
  ≡ₚ recs.
Proof.
  intros Hn. induction recs as [|x recs IH] using rev_ind.
  - unfold owned. cbn. induction (seq 0 (N.to_nat n)); [done|]. by cbn.
  - assert (Hm : N.of_nat (length recs) mod n < n) by (apply N.mod_lt; lia).
    rewrite (list_fmap_ext _ (fun g : nat =>
               owned (N.of_nat g) n recs
               ++ (if (g =? N.to_nat (N.of_nat (length recs) mod n))%nat
                   then [x] else []))%list (seq 0 (N.to_nat n))).
    2:{ intros i g _. rewrite owned_snoc. f_equal.
        revert Hm. generalize (N.of_nat (length recs) mod n). intros m Hm.
        destruct (N.eqb_spec m (N.of_nat g)), (Nat.eqb_spec g (N.to_nat m));
          try done; lia. }
    rewrite concat_fmap_app, IH, concat_single_hit.
    revert Hm. generalize (N.of_nat (length recs) mod n). intros m Hm.
    rewrite decide_True by lia. done.
Qed.

Lemma produced_cons_true p tr : produced ((true, p) :: tr) = p :: produced tr.
Proof. reflexivity. Qed.

Lemma produced_cons_false p tr : produced ((false, p) :: tr) = produced tr.
Proof. reflexivity. Qed.

(** ** The round-robin counter *)

Lemma uint_succ_rem (c n : N) (k : nat) :
  0 < n -> is_uint n -> c = N.of_nat k mod n ->
  uint_rem (uint_add c 1) n = Some (N.of_nat (Datatypes.S k) mod n).
Proof.
  unfold is_uint, uint_rem, uint_add. intros Hn Hu ->.
  destruct (N.eqb_spec n 0) as [->|_]; [lia|].
  assert (N.of_nat k mod n < n) by (apply N.mod_lt; lia).
  rewrite (N.mod_small (_ + 1)) by lia.
  rewrite N.Div0.add_mod_idemp_l. f_equal. f_equal. lia.
Qed.

(** ** The loop of [runSimulator] *)

Section LoopFacts.
Context {S T W : Type} `{!Simulator S} `{!PointSerializer T W}.
Variables (serializer : T) (groupID totalGroups : N).

(** From a state whose counter is [k mod totalGroups], the loop hands to
    the serializer the records that [owned_from k] selects. *)
Lemma loop_owned_from (fuel : nat) :
  0 < totalGroups -> is_uint totalGroups ->
  forall (st : Loop S W) (tr : list (bool * Point)) (k : nat),
    simulate fuel (sim st) (point st) = Some tr ->
    currGroup st = N.of_nat k mod totalGroups ->
    loop fuel serializer groupID totalGroups st
    = Some (serialize_all serializer
              (owned_from k groupID totalGroups (produced tr)) (out st)).
Proof.
  intros Hpos Hu. induction fuel as [|fuel IH]; intros st tr k Hsim Hc.
  - discriminate.
  - cbn [simulate] in Hsim. cbn [loop]. unfold iteration.
    destruct (Finished (sim st)).
    { injection Hsim as <-. reflexivity. }
    destruct (Next (sim st) (point st)) as [[s' p'] write].
    destruct (simulate fuel s' (Reset p')) as [tr'|] eqn:Hsim';
      [|discriminate].
    injection Hsim as <-.
    destruct write; cbn [negb].
    + rewrite produced_cons_true. cbn [owned_from serialize_all].
      rewrite <- Hc.
      rewrite (uint_succ_rem _ _ k Hpos Hu Hc).
      destruct (currGroup st =? groupID).
      * cbn [serialize_all].
        destruct (Serialize serializer p' (out st)) as [out' [e|]];
          [reflexivity|].
        exact (IH (mkLoop s' (Reset p') _ out') tr' _ Hsim' eq_refl).
      * exact (IH (mkLoop s' (Reset p') _ (out st)) tr' _ Hsim' eq_refl).
    + rewrite produced_cons_false.
      exact (IH (mkLoop s' (Reset p') _ (out st)) tr' _ Hsim' Hc).
Qed.

Lemma iteration_no_record (st : Loop S W) (s' : S) (p' : Point) :
  Finished (sim st) = false ->
  Next (sim st) (point st) = (s', p', false) ->
  iteration serializer groupID totalGroups st
  = Continue {| sim := s'; point := Reset p';
                currGroup := currGroup st; out := out st |}.
Proof. intros Hf Hn. unfold iteration. by rewrite Hf, Hn. Qed.

Lemma iteration_record (st : Loop S W) (s' : S) (p' : Point) :
  Finished (sim st) = false ->
  Next (sim st) (point st) = (s', p', true) ->
  0 < totalGroups -> is_uint totalGroups ->
  currGroup st < totalGroups ->
  match iteration serializer groupID totalGroups st with
  | Continue st' =>
      currGroup st' = (currGroup st + 1) mod totalGroups
      /\ point st' = Reset p' /\ sim st' = s'
      /\ (if currGroup st =? groupID
          then Serialize serializer p' (out st) = (out st', None)
          else out st' = out st)
  | Stop (Fatal e out') =>
      currGroup st = groupID
      /\ Serialize serializer p' (out st) = (out', Some e)
  | Stop _ => False
  end.
Proof.
  intros Hf Hn Hpos Hu Hc. unfold iteration. rewrite Hf, Hn. cbn [negb].
  assert (Hrem : uint_rem (uint_add (currGroup st) 1) totalGroups
                 = Some ((currGroup st + 1) mod totalGroups)).
  { unfold uint_rem, uint_add, is_uint in *.
    destruct (N.eqb_spec totalGroups 0); [lia|].
    by rewrite (N.mod_small (_ + 1)) by lia. }
  rewrite Hrem.
  destruct (N.eqb_spec (currGroup st) groupID) as [E|E].
  - destruct (Serialize serializer p' (out st)) as [out' [e|]]; cbn; auto.
  - cbn. auto.
Qed.

(** Every pass that goes on leaves the empty Point behind. *)
Lemma iteration_resets (st st' : Loop S W) :
  iteration serializer groupID totalGroups st = Continue st' ->
  point st' = NewPoint.
Proof.
  unfold iteration.
  destruct (Finished (sim st)); [discriminate|].
  destruct (Next (sim st) (point st)) as [[s' p'] write].
  destruct write; cbn [negb].
  - destruct (if currGroup st =? groupID then _ else _) as [out' [e|]];
      [discriminate|].
    destruct (uint_rem _ _); [|discriminate].
    by intros [= <-].
  - by intros [= <-].
Qed.

(** The loop ends as soon as the simulator does. *)
Lemma loop_total (fuel : nat) :
  forall (st : Loop S W) (tr : list (bool * Point)),
    simulate fuel (sim st) (point st) = Some tr ->
    is_Some (loop fuel serializer groupID totalGroups st).
Proof.
  induction fuel as [|fuel IH]; intros st tr Hsim; [discriminate|].
  cbn [simulate] in Hsim. cbn [loop]. unfold iteration.
  destruct (Finished (sim st)); [by eexists|].
  destruct (Next (sim st) (point st)) as [[s' p'] write].
  destruct (simulate fuel s' (Reset p')) as [tr'|] eqn:Hsim';
    [|discriminate].
  destruct write; cbn [negb].
  - destruct (if currGroup st =? groupID then _ else _) as [out' [e|]];
      [by eexists|].
    destruct (uint_rem _ _); [|by eexists].
    exact (IH (mkLoop s' (Reset p') _ out') tr' Hsim').
  - exact (IH (mkLoop s' (Reset p') _ (out st)) tr' Hsim').
Qed.

Lemma loop_no_panic (fuel : nat) :
  0 < totalGroups ->
  forall (st : Loop S W) (msg : string) (o : W),
    loop fuel serializer groupID totalGroups st <> Some (Panic msg o).
Proof.
  intros Hpos. induction fuel as [|fuel IH]; intros st msg o; [discriminate|].
  cbn [loop]. unfold iteration.
  destruct (Finished (sim st)); [discriminate|].
  destruct (Next (sim st) (point st)) as [[s' p'] write].
  destruct write; cbn [negb]; [|apply IH].
  destruct (if currGroup st =? groupID then _ else _) as [out' [e|]];
    [discriminate|].
  unfold uint_rem. destruct (N.eqb_spec totalGroups 0); [lia|]. apply IH.
Qed.

End LoopFacts.

Section LoopZero.
Context {S T W : Type} `{!Simulator S} `{!PointSerializer T W}.
Variables (serializer : T) (groupID : N).

(** Without groups the first produced record ends the loop: in [fatal]
    when it is serialized and that fails, in the division otherwise. *)
Lemma loop_zero_groups (fuel : nat) :
  forall (st : Loop S W) (tr : list (bool * Point)) (p : Point)
         (rest : list Point),
    simulate fuel (sim st) (point st) = Some tr ->
    produced tr = p :: rest ->
    loop fuel serializer groupID 0 st
    = Some (match (if currGroup st =? groupID
                   then Serialize serializer p (out st)
                   else (out st, None)) with
            | (o, Some e) => Fatal e o
            | (o, None) => Panic errDivideByZero o
            end).
Proof.
  induction fuel as [|fuel IH]; intros st tr p rest Hsim Hp; [discriminate|].
  cbn [simulate] in Hsim. cbn [loop]. unfold iteration.
  destruct (Finished (sim st)).
  { injection Hsim as <-. discriminate. }
  destruct (Next (sim st) (point st)) as [[s' p'] write].
  destruct (simulate fuel s' (Reset p')) as [tr'|] eqn:Hsim';
    [|discriminate].
  injection Hsim as <-.
  destruct write; cbn [negb].
  - rewrite produced_cons_true in Hp. injection Hp as -> _.
    destruct (if currGroup st =? groupID then _ else _) as [out' [e|]];
      reflexivity.
  - rewrite produced_cons_false in Hp.
    exact (IH (mkLoop s' (Reset p') _ (out st)) tr' p rest Hsim' Hp).
Qed.

End LoopZero.

Lemma serialize_all_RecordLog {R : Type} (encode : Point -> R)
    (recs : list Point) (out : list R) :
  serialize_all encode recs out = Returned (out ++ (encode <$> recs))%list.
Proof.
  revert out. induction recs as [|p recs IH]; intros out; cbn.
  - by rewrite app_nil_r.
  - rewrite IH. by rewrite <- app_assoc.
Qed.

Lemma mapM_all_Some {A B : Type} (f : A -> option B) (h : A -> B)
    (l : list A) :
  (forall a, a ∈ l -> f a = Some (h a)) -> mapM f l = Some (h <$> l).
Proof.
  induction l as [|a l IH]; intros Hf; [reflexivity|].
  cbn. rewrite (Hf a) by apply list_elem_of_here. cbn.
  rewrite IH; [done|]. intros b Hb. apply Hf. by apply list_elem_of_further.
Qed.

(** ** Claims on the generation loop *)

(** C1.  With at least one group, when the simulator finishes after the
    calls [tr], [runSimulator] ends as if the serializer had been handed, in
    generation order, exactly the produced records whose zero-based index
    [i] among the produced records has [i mod totalGroups = groupID]; a
    failing [Serialize] ends the run in [fatal] at that record.  A pass in
    which [Next] returns false resets the Point and keeps the counter; a
    pass that produced a record resets the Point and moves the counter to
    [(currGroup + 1) mod totalGroups], whether or not the record was
    serialized (the sink is untouched when it was not).  The bound
    [groupID < totalGroups] of the claim is not needed. *)
Theorem runSimulator_round_robin {S T W : Type}
    `{!Simulator S} `{!PointSerializer T W}
    (fuel : nat) (sim0 : S) (serializer : T) (out0 : W)
    (groupID totalGroups : N) (tr : list (bool * Point)) :
  1 <= totalGroups -> is_uint totalGroups -> groupID < totalGroups ->
  simulate fuel sim0 NewPoint = Some tr ->
  runSimulator fuel sim0 serializer out0 groupID totalGroups
  = Some (serialize_all serializer
            (owned groupID totalGroups (produced tr)) out0)
  /\ (forall (st : Loop S W) (s' : S) (p' : Point),
        Finished (sim st) = false ->
        Next (sim st) (point st) = (s', p', false) ->
        iteration serializer groupID totalGroups st
        = Continue {| sim := s'; point := Reset p';
                      currGroup := currGroup st; out := out st |})
  /\ (forall (st : Loop S W) (s' : S) (p' : Point),
        Finished (sim st) = false ->
        Next (sim st) (point st) = (s', p', true) ->
        currGroup st < totalGroups ->
        match iteration serializer groupID totalGroups st with
        | Continue st' =>
            currGroup st' = (currGroup st + 1) mod totalGroups
            /\ point st' = Reset p' /\ sim st' = s'
            /\ (if currGroup st =? groupID
                then Serialize serializer p' (out st) = (out st', None)
                else out st' = out st)
        | Stop (Fatal e out') =>
            currGroup st = groupID
            /\ Serialize serializer p' (out st) = (out', Some e)
        | Stop _ => False
        end).
Proof.
  intros Hn Hu _ Hsim. split; [|split].
  - unfold runSimulator. rewrite owned_owned_from.
    apply (loop_owned_from serializer groupID totalGroups fuel);
      [lia|done|done|].
    cbn. by rewrite N.Div0.mod_0_l.
  - intros st s' p'. apply iteration_no_record.
  - intros st s' p' Hf Hnext Hc.
    apply iteration_record; [done|done|lia|done|done].
Qed.

Lemma runSimulator_round_robin_witness :
  runSimulator 7 sc measurementName [] 1 2 = Some (Returned ["b"; "d"]).
Proof.
  assert (Hsim : simulate 7 sc NewPoint
                 = Some (default [] (simulate 7 sc NewPoint)))
    by reflexivity.
  exact (proj1 (runSimulator_round_robin 7 sc measurementName [] 1 2 _
                  ltac:(lia) eq_refl ltac:(lia) Hsim)).
Defined.

(** A failing record ends the run: group 0 of 1 writes the first line and
    stops at the nameless record. *)
Example runSimulator_fatal :
  @runSimulator _ _ _ _ Line_PointSerializer 5
    {| script := [Some (named "a"); Some (named ""); Some (named "c")];
       schema := ∅ |}
    InfluxSerializer NewWriter 0 1
  = Some (Fatal "empty measurement" ("a" ++ nl)).
Proof. reflexivity. Qed.

(** C2.  For a serializer that appends one encoded record per call to a
    sink that does not fail, and a simulator that finishes after the calls
    [tr]: the runs for the groups [0 .. totalGroups-1] all return, the run
    with one group returns the encoded produced records, and the outputs of
    the groups, concatenated in group order, hold the same records, each as
    often as the single run does. *)
Theorem partition_reconstructs {S R : Type} `{!Simulator S}
    (fuel : nat) (sim0 : S) (encode : Point -> R) (totalGroups : N)
    (tr : list (bool * Point)) :
  1 < totalGroups -> is_uint totalGroups ->
  simulate fuel sim0 NewPoint = Some tr ->
  exists (parts : list (list R)) (whole : list R),
    mapM (fun g : nat =>
            returned (runSimulator fuel sim0 encode [] (N.of_nat g)
                        totalGroups))
      (seq 0 (N.to_nat totalGroups)) = Some parts
    /\ returned (runSimulator fuel sim0 encode [] 0 1) = Some whole
    /\ whole = encode <$> produced tr
    /\ concat parts ≡ₚ whole.
Proof.
  intros Hn Hu Hsim.
  assert (Hrun : forall g n : N, 0 < n -> is_uint n ->
            returned (runSimulator fuel sim0 encode [] g n)
            = Some (encode <$> owned g n (produced tr))).
  { intros g n Hpos Hun. unfold runSimulator.
    rewrite (loop_owned_from encode g n fuel Hpos Hun
               (mkLoop sim0 NewPoint 0 []) tr 0%nat Hsim)
      by (cbn; by rewrite N.Div0.mod_0_l).
    by rewrite <- owned_owned_from, serialize_all_RecordLog. }
  exists ((fun g : nat =>
             encode <$> owned (N.of_nat g) totalGroups (produced tr))
            <$> seq 0 (N.to_nat totalGroups)),
         (encode <$> produced tr).
  split; [|split; [|split]].
  - apply mapM_all_Some. intros g _. apply Hrun; [lia|done].
  - rewrite Hrun by done. by rewrite owned_whole.
  - done.
  - assert (Hflat : forall l : list nat,
              concat ((fun g : nat =>
                         encode <$> owned (N.of_nat g) totalGroups (produced tr))
                        <$> l)
              = encode <$> concat ((fun g : nat =>
                                      owned (N.of_nat g) totalGroups
                                        (produced tr)) <$> l)).
    { induction l as [|g l IH]; [done|]. cbn. by rewrite fmap_app, IH. }
    rewrite Hflat. by rewrite concat_owned by lia.
Qed.

Lemma partition_reconstructs_witness :
  exists (parts : list (list string)) (whole : list string),
    mapM (fun g : nat =>
            returned (runSimulator 7 sc measurementName [] (N.of_nat g) 2))
      (seq 0 (N.to_nat 2)) = Some parts
    /\ returned (runSimulator 7 sc measurementName [] 0 1) = Some whole
    /\ whole = measurementName <$> produced (default [] (simulate 7 sc NewPoint))
    /\ concat parts ≡ₚ whole.
Proof.
  apply (partition_reconstructs 7 sc measurementName 2
           (default [] (simulate 7 sc NewPoint)));
    [lia | reflexivity | reflexivity].
Defined.

(** Six records in two groups: three each.  The concatenation holds the
    records of the single run in another order. *)
Example partition_order :
  let six :=
    {| script := Some ∘ named <$> ["r0"; "r1"; "r2"; "r3"; "r4"; "r5"];
       schema := ∅ |} in
  mapM (fun g : nat =>
          returned (runSimulator 7 six measurementName [] (N.of_nat g) 2))
    (seq 0 2) = Some [["r0"; "r2"; "r4"]; ["r1"; "r3"; "r5"]]
  /\ returned (runSimulator 7 six measurementName [] 0 1)
     = Some ["r0"; "r1"; "r2"; "r3"; "r4"; "r5"].
Proof. split; reflexivity. Qed.

(** C3.  [validateGroups] returns an error exactly when [totalGroups] is 0
    or [groupID >= totalGroups]; without an error it returns [true].  It
    fails for [groupID = totalGroups] and for [groupID > totalGroups], and
    it succeeds for [groupID = totalGroups - 1] when [totalGroups >= 1]. *)
Theorem validateGroups_spec (groupID totalGroups : N) :
  ((validateGroups groupID totalGroups).2 <> None
     <-> totalGroups = 0 \/ totalGroups <= groupID)
  /\ ((validateGroups groupID totalGroups).2 = None
        <-> validateGroups groupID totalGroups = (true, None))
  /\ (validateGroups totalGroups totalGroups).2 <> None
  /\ (totalGroups < groupID -> (validateGroups groupID totalGroups).2 <> None)
  /\ (1 <= totalGroups ->
      validateGroups (totalGroups - 1) totalGroups = (true, None)).
Proof.
  unfold validateGroups. repeat split.
  - destruct (N.eqb_spec totalGroups 0); [auto|].
    destruct (N.leb_spec totalGroups groupID); [auto|]. cbn. congruence.
  - intros [->|Hle]; [done|].
    destruct (N.eqb_spec totalGroups 0); [done|].
    destruct (N.leb_spec totalGroups groupID); [done|lia].
  - destruct (totalGroups =? 0); [done|].
    destruct (totalGroups <=? groupID); done.
  - intros H. by rewrite H.
  - destruct (totalGroups =? 0); [done|]. by rewrite N.leb_refl.
  - intros Hlt. destruct (totalGroups =? 0); [done|].
    destruct (N.leb_spec totalGroups groupID); [done|lia].
  - intros Hge. destruct (N.eqb_spec totalGroups 0); [lia|].
    destruct (N.leb_spec totalGroups (totalGroups - 1)); [lia|done].
Qed.

Lemma validateGroups_spec_witness : validateGroups (3 - 1) 3 = (true, None).
Proof.
  apply (proj2 (proj2 (proj2 (proj2 (validateGroups_spec 2 3))))). lia.
Defined.

Example validateGroups_messages :
  validateGroups 0 0 = (false, Some errTotalGroupsZero)
  /\ validateGroups 5 3
     = (false,
        Some "incorrect interleaved groups configuration: id 5 >= total groups 3").
Proof. split; reflexivity. Qed.

(** C6.  [Reset] leaves the state of a freshly constructed Point.  Every
    pass through the loop after which the loop goes on, with or without a
    record and whichever group the record belongs to, ends with the Point
    reset; so each call of [Next] in [runSimulator] is handed the empty
    Point.  (The only pass that does not reset is the one that ends the run
    in [fatal].) *)
Theorem point_reset_every_iteration {S T W : Type}
    `{!Simulator S} `{!PointSerializer T W}
    (serializer : T) (groupID totalGroups : N) (sim0 : S) (out0 : W) :
  (forall p : Point, Reset p = NewPoint)
  /\ (forall st st' : Loop S W,
        iteration serializer groupID totalGroups st = Continue st' ->
        point st' = NewPoint)
  /\ (forall st : Loop S W,
        reaches serializer groupID totalGroups
          {| sim := sim0; point := NewPoint; currGroup := 0; out := out0 |}
          st ->
        point st = NewPoint).
Proof.
  split; [done|]. split; [apply iteration_resets|].
  intros st Hr. destruct Hr as [|st st' _ Hit]; [done|].
  by apply (iteration_resets serializer groupID totalGroups st).
Qed.

Lemma point_reset_every_iteration_witness :
  point (mkLoop {| script := [None]; schema := ∅ |} (Reset (named "a")) 1 ["a"])
  = NewPoint.
Proof.
  apply (proj2 (proj2 (point_reset_every_iteration
                         measurementName 0 2
                         {| script := [Some (named "a"); None]; schema := ∅ |}
                         []))).
  eapply reaches_next; [apply reaches_start|]. reflexivity.
Defined.

(** ** Strings and sorting *)

Lemma string_app_assoc (a b c : string) : (a ++ b) ++ c = a ++ b ++ c.
Proof.
  induction a as [|ch a IH]; [done|].
  change (String ch ((a ++ b) ++ c) = String ch (a ++ b ++ c)).
  by rewrite IH.
Qed.

Lemma string_app_nil_r (a : string) : a ++ "" = a.
Proof.
  induction a as [|ch a IH]; [done|].
  change (String ch (a ++ "") = String ch a). by rewrite IH.
Qed.

Lemma writeCommaSeparated_spec (xs : list string) (out : Writer) :
  writeCommaSeparated out xs = out ++ commaSeparated xs.
Proof.
  unfold writeCommaSeparated, commaSeparated, WriteString.
  revert out. induction xs as [|x xs IH]; intros out; cbn.
  - by rewrite string_app_nil_r.
  - rewrite IH. by rewrite !string_app_assoc.
Qed.

Lemma writeMeasurements_spec (fields : gmap string (list string))
    (keys : list string) (out : Writer) :
  writeMeasurements fields out keys
  = out ++ strcat (measurementLine fields <$> keys).
Proof.
  unfold writeMeasurements, measurementLine, WriteString.
  revert out. induction keys as [|k keys IH]; intros out; cbn.
  - by rewrite string_app_nil_r.
  - rewrite IH, writeCommaSeparated_spec. by rewrite !string_app_assoc.
Qed.

Lemma append_each {A : Type} (l acc : list A) :
  fold_left (fun ks k => ks ++ [k])%list l acc = (acc ++ l)%list.
Proof.
  revert acc. induction l as [|x l IH]; intros acc; cbn.
  - by rewrite app_nil_r.
  - rewrite IH. by rewrite <- app_assoc.
Qed.

(** The sorted slice does not depend on the order of the input. *)
Lemma sort_Strings_Permutation (l1 l2 : list string) :
  l1 ≡ₚ l2 -> sort_Strings l1 = sort_Strings l2.
Proof.
  intros Hp. unfold sort_Strings.
  apply (Sorted_unique String.le); [apply Sorted_merge_sort, _..|].
  by rewrite !merge_sort_Permutation.
Qed.

Lemma StronglySorted_strict {A : Type} (R : relation A) `{!AntiSymm (=) R}
    (l : list A) :
  StronglySorted R l -> NoDup l -> StronglySorted (strict R) l.
Proof.
  induction 1 as [|x l Hl IH Hx]; intros Hnd; [constructor|].
  apply NoDup_cons in Hnd as [Hnin Hnd].
  constructor; [by apply IH|].
  rewrite Forall_forall in Hx |- *. intros y Hy. split; [by apply Hx|].
  intros Hyx. assert (x = y) as -> by (apply (anti_symm R); auto).
  done.
Qed.

Lemma sort_Strings_keys (m : gmap string (list string)) :
  sort_Strings (elements (dom m)) ≡ₚ elements (dom m)
  /\ StronglySorted (strict String.le) (sort_Strings (elements (dom m))).
Proof.
  split; [apply merge_sort_Permutation|].
  apply StronglySorted_strict; [apply _| |].
  - apply StronglySorted_merge_sort; apply _.
  - unfold sort_Strings. rewrite merge_sort_Permutation. apply NoDup_elements.
Qed.

(** ** Validation *)

Lemma validateFormat_in_spec (choices : list string) (format : string) :
  validateFormat_in choices format = true <-> format ∈ choices.
Proof.
  induction choices as [|s rest IH]; cbn.
  - split; [discriminate|]. by intros ?%elem_of_nil.
  - rewrite elem_of_cons. destruct (String.eqb_spec s format) as [->|Hne].
    + tauto.
    + rewrite IH. split; [tauto|]. intros [->|?]; [done|tauto].
Qed.

Lemma validateFormat_spec (format : string) :
  validateFormat format = true <-> format ∈ formatChoices.
Proof. apply validateFormat_in_spec. Qed.

Lemma validateGroups_ok (groupID totalGroups : N) :
  groupID < totalGroups -> validateGroups groupID totalGroups = (true, None).
Proof.
  intros Hlt. unfold validateGroups.
  destruct (N.eqb_spec totalGroups 0); [lia|].
  destruct (N.leb_spec totalGroups groupID); [lia|done].
Qed.

(** ** [getConfig], [getSerializer] and [main] *)

Section MainFacts.
Context `{Externals}.

Lemma getConfig_unknown (o : Options) (useCase : string) :
  useCase ∉ useCaseChoices ->
  getConfig o useCase = Die (errUnknownUseCase useCase).
Proof.
  unfold useCaseChoices, getConfig. rewrite !not_elem_of_cons.
  intros (Hd & Hc & Hs & _).
  destruct (String.eqb_spec useCase useCaseDevops); [done|].
  destruct (String.eqb_spec useCase useCaseCPUOnly); [done|].
  destruct (String.eqb_spec useCase useCaseCPUSingle); [done|].
  done.
Qed.

Lemma getSerializer_timescaledb (sim : SimState) (out : Writer)
    (order : gmap string (list string) -> list string) :
  order (Fields sim) ≡ₚ elements (dom (Fields sim)) ->
  getSerializer sim formatTimescaleDB out order
  = Ok (TimescaleDBSerializer,
        out ++ preamble MachineTagKeys (Fields sim)
                 (sort_Strings (elements (dom (Fields sim))))).
Proof.
  intros Hp. unfold getSerializer. cbn [String.eqb formatTimescaleDB
    formatCassandra formatInflux formatMongo Ascii.eqb Bool.eqb].
  rewrite append_each, app_nil_l, (sort_Strings_Permutation _ _ Hp).
  rewrite writeMeasurements_spec, writeCommaSeparated_spec.
  unfold WriteString, preamble. by rewrite !string_app_assoc.
Qed.

(** The order in which [range] walks the map does not show. *)
Lemma getSerializer_order (sim : SimState) (format : string) (out : Writer)
    (order1 order2 : gmap string (list string) -> list string) :
  order1 (Fields sim) ≡ₚ elements (dom (Fields sim)) ->
  order2 (Fields sim) ≡ₚ elements (dom (Fields sim)) ->
  getSerializer sim format out order1 = getSerializer sim format out order2.
Proof.
  intros H1 H2. unfold getSerializer.
  repeat (destruct (String.eqb format _); [done|]).
  destruct (String.eqb format _); [|done].
  rewrite !append_each, !app_nil_l.
  by rewrite (sort_Strings_Permutation _ _ H1),
             (sort_Strings_Permutation _ _ H2).
Qed.

Lemma main_groups_zero (fuel : nat) (env : Env) (o : Options) :
  interleavedGenerationGroups o = 0 ->
  main fuel env o = Some (Fatal errTotalGroupsZero NewWriter).
Proof. intros Hz. unfold main, validateGroups. by rewrite Hz. Qed.

Lemma main_group_id (fuel : nat) (env : Env) (o : Options) :
  0 < interleavedGenerationGroups o ->
  interleavedGenerationGroups o <= interleavedGenerationGroupID o ->
  main fuel env o
  = Some (Fatal (errInvalidGroups (interleavedGenerationGroupID o)
                   (interleavedGenerationGroups o)) NewWriter).
Proof.
  intros Hpos Hle. unfold main, validateGroups.
  destruct (N.eqb_spec (interleavedGenerationGroups o) 0); [lia|].
  destruct (N.leb_spec (interleavedGenerationGroups o)
              (interleavedGenerationGroupID o)); [done|lia].
Qed.

Lemma main_format (fuel : nat) (env : Env) (o : Options) :
  interleavedGenerationGroupID o < interleavedGenerationGroups o ->
  format o ∉ formatChoices ->
  main fuel env o = Some (Fatal (errInvalidFormat (format o)) NewWriter).
Proof.
  intros Hlt Hf. unfold main. rewrite validateGroups_ok by done.
  destruct (validateFormat (format o)) eqn:Hv; [|done].
  by apply validateFormat_spec in Hv.
Qed.

(** [main] once the groups, the format and the profile file are in
    order. *)
Lemma main_checked (fuel : nat) (env : Env) (o : Options) :
  interleavedGenerationGroupID o < interleavedGenerationGroups o ->
  format o ∈ formatChoices ->
  (profileFile o = "" \/ createProfile env = None) ->
  main fuel env o
  = match getConfig o (useCase o) with
    | Die msg => Some (Fatal msg NewWriter)
    | Ok cfg =>
        let sim := ToSimulator cfg (logInterval o) (seed o) in
        match getSerializer sim (format o) NewWriter (rangeOrder env) with
        | Die msg => Some (Fatal msg NewWriter)
        | Ok (serializer, out') =>
            runSimulator fuel sim serializer out'
              (interleavedGenerationGroupID o)
              (interleavedGenerationGroups o)
        end
    end.
Proof.
  intros Hlt Hf Hp. unfold main. rewrite validateGroups_ok by done.
  apply validateFormat_spec in Hf. rewrite Hf. cbn [negb].
  destruct Hp as [-> | ->]; [reflexivity|].
  by destruct (String.eqb (profileFile o) "").
Qed.

Lemma main_invalid (fuel : nat) (env : Env) (o : Options) :
  invalid_config o ->
  exists msg : string, main fuel env o = Some (Fatal msg NewWriter).
Proof.
  intros Hinv.
  destruct (N.eq_dec (interleavedGenerationGroups o) 0) as [Hz|Hnz].
  { eexists. by apply main_groups_zero. }
  destruct (N.le_gt_cases (interleavedGenerationGroups o)
              (interleavedGenerationGroupID o)) as [Hle|Hlt].
  { eexists. apply main_group_id; [lia|done]. }
  destruct (decide (format o ∈ formatChoices)) as [Hf|Hf].
  2:{ eexists. by apply main_format. }
  destruct Hinv as [?|[?|[?|Hu]]]; [lia|lia|done|].
  unfold main. rewrite validateGroups_ok by done.
  apply validateFormat_spec in Hf. rewrite Hf. cbn [negb].
  destruct (if String.eqb _ _ then _ else _); [by eexists|].
  rewrite getConfig_unknown by done. by eexists.
Qed.

Lemma main_no_panic (fuel : nat) (env : Env) (o : Options)
    (msg : string) (out : Writer) :
  main fuel env o <> Some (Panic msg out).
Proof.
  unfold main, validateGroups.
  destruct (N.eqb_spec (interleavedGenerationGroups o) 0); [done|].
  destruct (N.leb_spec (interleavedGenerationGroups o)
              (interleavedGenerationGroupID o)); [done|].
  destruct (negb _); [done|].
  destruct (if String.eqb _ _ then _ else _); [done|].
  destruct (getConfig _ _); [|done].
  destruct (getSerializer _ _ _ _) as [[ser out']|]; [|done].
  apply loop_no_panic. lia.
Qed.

(** [main] takes nothing from its surroundings but the outcome of the
    creation of the profile file. *)
Lemma main_env (fuel : nat) (env1 env2 : Env) (o : Options) :
  range_ok env1 -> range_ok env2 ->
  (profileFile o <> "" -> createProfile env1 = createProfile env2) ->
  main fuel env1 o = main fuel env2 o.
Proof.
  intros Hr1 Hr2 Hp. unfold main.
  destruct (validateGroups _ _) as [[|] [e|]]; try done.
  1,2: destruct (negb _); [done|];
       destruct (String.eqb_spec (profileFile o) "") as [E|E];
       [|rewrite (Hp E); destruct (createProfile env2); [done|]];
       (destruct (getConfig _ _) as [cfg|]; [|done]);
       by rewrite (getSerializer_order _ _ _ (rangeOrder env1)
                     (rangeOrder env2)) by (apply Hr1 || apply Hr2).
Qed.

(** With a seed on the command line [init] does not read the clock. *)
Lemma postFlagParse_env (env1 env2 : Env) (fl : Flags) :
  flag_seed (pfv fl) <> 0%Z ->
  postFlagParse env1 fl = postFlagParse env2 fl.
Proof.
  intros Hs. unfold postFlagParse.
  destruct (Z.eqb_spec (flag_seed (pfv fl)) 0); [done|]. done.
Qed.

Lemma postFlagParse_keeps (env : Env) (fl : Flags) (o : Options) :
  postFlagParse env fl = Ok o ->
  format o = flag_format fl /\ useCase o = flag_useCase fl
  /\ profileFile o = flag_profileFile fl
  /\ interleavedGenerationGroupID o = flag_groupID fl
  /\ interleavedGenerationGroups o = flag_groups fl.
Proof.
  unfold postFlagParse.
  destruct (parseTimeFromString _); [|discriminate].
  destruct (parseTimeFromString _); [|discriminate].
  by intros [= <-].
Qed.

End MainFacts.

(** ** Claims on the whole run *)

(** C4.  Two runs of the process on the same command line with a non-zero
    seed end alike, with the same bytes written, whatever the clock shows
    and in whatever order [range] walks the map of the fields in either
    run; when a profile file is asked for, its creation is taken to have
    the same outcome in both.  It holds for every group setting, among them
    one group with id 0.  The simulator and the serializers enter as
    functions of the seed and the configuration. *)
Theorem program_deterministic `{Externals}
    (fuel : nat) (env1 env2 : Env) (fl : Flags) :
  flag_seed (pfv fl) <> 0%Z ->
  range_ok env1 -> range_ok env2 ->
  (flag_profileFile fl <> "" -> createProfile env1 = createProfile env2) ->
  program fuel env1 fl = program fuel env2 fl.
Proof.
  intros Hs Hr1 Hr2 Hp. unfold program.
  rewrite (postFlagParse_env env1 env2) by done.
  destruct (postFlagParse env2 fl) as [o|msg] eqn:Hpost; [|done].
  apply main_env; [done|done|].
  destruct (postFlagParse_keeps env2 fl o Hpost) as (_ & _ & -> & _).
  done.
Qed.

Lemma program_deterministic_witness :
  @program ScriptedExternals 7 envA
    (flagsOf 42 formatTimescaleDB useCaseCPUSingle 0 1)
  = @program ScriptedExternals 7 envB
      (flagsOf 42 formatTimescaleDB useCaseCPUSingle 0 1).
Proof.
  apply (@program_deterministic ScriptedExternals).
  - discriminate.
  - intros m. reflexivity.
  - intros m. apply reverse_Permutation.
  - intros Hne. exfalso. apply Hne. reflexivity.
Defined.

(** Without a seed on the command line the clock decides the output. *)
Example program_seed_zero :
  written <$> @program ScriptedExternals 7 envA
                (flagsOf 0 formatInflux useCaseCPUSingle 0 1)
  = Some ("cpu" ++ nl ++ "5" ++ nl)
  /\ written <$> @program ScriptedExternals 7 envB
                   (flagsOf 0 formatInflux useCaseCPUSingle 0 1)
     = Some ("cpu" ++ nl ++ "77" ++ nl).
Proof. split; reflexivity. Qed.

(** C5.  For the format [timescaledb], whatever the order in which [range]
    walks the map of [Fields], [getSerializer] writes the line of ["tags"]
    followed by the machine tag keys in their fixed order, then one line
    per measurement, the measurement names strictly ascending in the
    byte-wise order and each followed by its field names in the order of
    the map entry, then an empty line, and returns the TimescaleDB
    serializer.  [main] starts the generation loop on the sink that holds
    exactly this preamble, so it stands before every record. *)
Theorem timescaledb_preamble `{Externals}
    (sim : SimState) (out : Writer)
    (order : gmap string (list string) -> list string) :
  order (Fields sim) ≡ₚ elements (dom (Fields sim)) ->
  exists names : list string,
    getSerializer sim formatTimescaleDB out order
    = Ok (TimescaleDBSerializer,
          out ++ preamble MachineTagKeys (Fields sim) names)
    /\ names ≡ₚ elements (dom (Fields sim))
    /\ StronglySorted (strict String.le) names
    /\ (forall (fuel : nat) (env : Env) (o : Options)
               (cfg : SimulatorConfig Time),
          range_ok env ->
          interleavedGenerationGroupID o < interleavedGenerationGroups o ->
          format o = formatTimescaleDB ->
          profileFile o = "" \/ createProfile env = None ->
          getConfig o (useCase o) = Ok cfg ->
          ToSimulator cfg (logInterval o) (seed o) = sim ->
          main fuel env o
          = runSimulator fuel sim TimescaleDBSerializer
              (preamble MachineTagKeys (Fields sim) names)
              (interleavedGenerationGroupID o)
              (interleavedGenerationGroups o)).
Proof.
  intros Hp. exists (sort_Strings (elements (dom (Fields sim)))).
  destruct (sort_Strings_keys (Fields sim)) as [Hperm Hsorted].
  split; [by apply getSerializer_timescaledb|].
  split; [done|]. split; [done|].
  intros fuel env o cfg Hr Hlt Hf Hprof Hcfg <-.
  assert (Hin : format o ∈ formatChoices).
  { apply validateFormat_spec. by rewrite Hf. }
  rewrite (main_checked fuel env o Hlt Hin Hprof), Hcfg. cbn zeta.
  rewrite Hf. by rewrite getSerializer_timescaledb by apply Hr.
Qed.

Lemma timescaledb_preamble_witness :
  exists names : list string,
    @getSerializer ScriptedExternals
      {| script := []; schema := {[ "mem" := ["used"; "free"] ]} |}
      formatTimescaleDB NewWriter (rangeOrder envA)
    = Ok (TimescaleDBSerializer,
          preamble ["hostname"; "region"]
            {[ "mem" := ["used"; "free"] ]} names).
Proof.
  destruct (@timescaledb_preamble ScriptedExternals
              {| script := []; schema := {[ "mem" := ["used"; "free"] ]} |}
              NewWriter (rangeOrder envA))
    as (names & Hg & _).
  - reflexivity.
  - exists names. exact Hg.
Defined.

(** The preamble of a simulator with two measurements, the map walked
    backwards. *)
Example getSerializer_timescaledb_bytes :
  @getSerializer ScriptedExternals
    {| script := [];
       schema := {[ "mem" := ["used"; "free"] ]} ∪ {[ "cpu" := ["usage_user"] ]} |}
    formatTimescaleDB NewWriter (rangeOrder envB)
  = Ok (TimescaleDBSerializer,
        "tags,hostname,region" ++ nl ++ "cpu,usage_user" ++ nl
        ++ "mem,used,free" ++ nl ++ nl).
Proof. vm_compute. reflexivity. Qed.

(** C7.  Each configuration error ends [main] in [fatal], with a message
    that names the offending value, exit status 1 and nothing written to
    the output: no group at all; a group id that is not below the number of
    groups; a format that is not among the choices; a use case that is not
    among the choices (here the message is that of the use case unless the
    creation of a profile file has failed first).  The checks of the groups
    and of the format come before [getSerializer] and the loop.  The same
    holds for the process as a whole, where [init] may already have ended
    it on a time stamp. *)
Theorem config_failure_is_fatal `{Externals}
    (fuel : nat) (env : Env) (o : Options) (fl : Flags) :
  (interleavedGenerationGroups o = 0 ->
   main fuel env o = Some (Fatal errTotalGroupsZero NewWriter))
  /\ (0 < interleavedGenerationGroups o ->
      interleavedGenerationGroups o <= interleavedGenerationGroupID o ->
      main fuel env o
      = Some (Fatal (errInvalidGroups (interleavedGenerationGroupID o)
                       (interleavedGenerationGroups o)) NewWriter))
  /\ (interleavedGenerationGroupID o < interleavedGenerationGroups o ->
      format o ∉ formatChoices ->
      main fuel env o = Some (Fatal (errInvalidFormat (format o)) NewWriter))
  /\ (interleavedGenerationGroupID o < interleavedGenerationGroups o ->
      format o ∈ formatChoices ->
      profileFile o = "" \/ createProfile env = None ->
      useCase o ∉ useCaseChoices ->
      main fuel env o
      = Some (Fatal (errUnknownUseCase (useCase o)) NewWriter))
  /\ (invalid_config o ->
      exists e : Ending Writer,
        main fuel env o = Some e /\ exitStatus e = 1%Z /\ written e = "")
  /\ (flag_groups fl = 0 \/ flag_groups fl <= flag_groupID fl
      \/ flag_format fl ∉ formatChoices
      \/ flag_useCase fl ∉ useCaseChoices ->
      exists e : Ending Writer,
        program fuel env fl = Some e /\ exitStatus e = 1%Z /\ written e = "").
Proof.
  split; [apply main_groups_zero|].
  split; [apply main_group_id|].
  split; [apply main_format|].
  split.
  { intros Hlt Hf Hp Hu. rewrite main_checked by done.
    by rewrite getConfig_unknown. }
  split.
  { intros Hinv. destruct (main_invalid fuel env o Hinv) as [msg Hm].
    by exists (Fatal msg NewWriter). }
  intros Hinv. unfold program.
  destruct (postFlagParse env fl) as [o'|msg] eqn:Hpost.
  - destruct (postFlagParse_keeps env fl o' Hpost) as (Hf & Hu & _ & Hg & Hn).
    destruct (main_invalid fuel env o') as [msg Hm].
    { unfold invalid_config. by rewrite Hf, Hu, Hg, Hn. }
    by exists (Fatal msg NewWriter).
  - by exists (Fatal msg NewWriter).
Qed.

Lemma config_failure_is_fatal_witness :
  @main ScriptedExternals 0 envA (optionsOf "csv" useCaseDevops 0 1)
  = Some (Fatal (errInvalidFormat "csv") NewWriter).
Proof.
  apply (proj1 (proj2 (proj2
           (@config_failure_is_fatal ScriptedExternals 0 envA
              (optionsOf "csv" useCaseDevops 0 1)
              (flagsOf 42 "csv" useCaseDevops 0 1))))).
  - reflexivity.
  - compute_done.
Defined.

Example main_messages :
  @main ScriptedExternals 0 envA (optionsOf "csv" useCaseDevops 0 1)
  = Some (Fatal "invalid format specifier: csv (valid choices: [cassandra influx mongo timescaledb])" "")
  /\ @main ScriptedExternals 0 envA (optionsOf formatTimescaleDB "iot" 0 1)
     = Some (Fatal "unknown use case: 'iot'" "")
  /\ @main ScriptedExternals 0 envA (optionsOf formatTimescaleDB "iot" 2 2)
     = Some (Fatal "incorrect interleaved groups configuration: id 2 >= total groups 2" "").
Proof. repeat split; reflexivity. Qed.

(** C9.  With at least one group the remainder in [runSimulator] never has
    a zero divisor: no run ends in a panic, and a run whose simulator
    finishes ends.  With no group at all the run ends at the first
    produced record, in the division by zero; only when group 0 is asked
    for is the record serialized first, and a failure there ends the run in
    [fatal] before the division.  [main] ends in [fatal] when the number of
    groups is 0 and never ends in a panic. *)
Theorem runSimulator_division {S T W : Type}
    `{!Simulator S} `{!PointSerializer T W} `{Externals}
    (fuel : nat) (sim0 : S) (serializer : T) (out0 : W) (groupID : N)
    (tr : list (bool * Point)) :
  (forall totalGroups : N,
     1 <= totalGroups ->
     simulate fuel sim0 NewPoint = Some tr ->
     exists e : Ending W,
       runSimulator fuel sim0 serializer out0 groupID totalGroups = Some e
       /\ forall (msg : string) (o : W), e <> Panic msg o)
  /\ (forall (totalGroups : N) (fuel' : nat) (msg : string) (o : W),
        1 <= totalGroups ->
        runSimulator fuel' sim0 serializer out0 groupID totalGroups
        <> Some (Panic msg o))
  /\ (forall (p : Point) (rest : list Point),
        simulate fuel sim0 NewPoint = Some tr ->
        produced tr = p :: rest ->
        runSimulator fuel sim0 serializer out0 groupID 0
        = Some (match (if 0 =? groupID
                       then Serialize serializer p out0
                       else (out0, None)) with
                | (o, Some e) => Fatal e o
                | (o, None) => Panic errDivideByZero o
                end))
  /\ (forall (env : Env) (o : Options),
        (interleavedGenerationGroups o = 0 ->
         main fuel env o = Some (Fatal errTotalGroupsZero NewWriter))
        /\ forall (msg : string) (out : Writer),
             main fuel env o <> Some (Panic msg out)).
Proof.
  split; [|split; [|split]].
  - intros n Hn Hsim.
    destruct (loop_total serializer groupID n fuel
                (mkLoop sim0 NewPoint 0 out0) tr Hsim) as [e He].
    exists e. split; [exact He|]. intros msg o ->.
    by apply (loop_no_panic serializer groupID n fuel ltac:(lia)) in He.
  - intros n fuel' msg o Hn. apply loop_no_panic. lia.
  - intros p rest Hsim Hp.
    exact (loop_zero_groups serializer groupID fuel
             (mkLoop sim0 NewPoint 0 out0) tr p rest Hsim Hp).
  - intros env o. split; [apply main_groups_zero|].
    intros msg out. apply main_no_panic.
Qed.

Lemma runSimulator_division_witness :
  runSimulator 7 sc measurementName [] 0 0
  = Some (Panic errDivideByZero ["a"]).
Proof.
  assert (Hsim : simulate 7 sc NewPoint
                 = Some (default [] (simulate 7 sc NewPoint)))
    by reflexivity.
  exact (proj1 (proj2 (proj2
           (@runSimulator_division _ _ _ _ _ ScriptedExternals
              7 sc measurementName [] 0 _)))
         (named "a") _ Hsim eq_refl).
Defined.

(** ** Claims on the query generator *)

(** C8.  When [newTimescaleDBDevopsCommon] returns a pointer to a
    [TimescaleDBDevops], as the type assertion expects, the generator built
    for [hosts] holds that generator, made from [(dbConfig, start, end)],
    and the field [hosts].  Its [Dispatch] takes a query from the pool,
    has [HighCPUForHosts] of the embedded generator fill it with the
    arguments [(scaleVar, hosts)], and returns the reference that the pool
    gave. *)
Theorem Dispatch_delegates `{bulk_query_gen.Externals}
    (common : bulk_query_gen.DatabaseConfig -> bulk_query_gen.Time ->
              bulk_query_gen.Time -> bulk_query_gen.QueryGenerator)
    (hosts : Z) (dbConfig : bulk_query_gen.DatabaseConfig)
    (start end_ : bulk_query_gen.Time)
    (underlying : bulk_query_gen.TimescaleDBDevops)
    (a scaleVar : Z) (w w1 : bulk_query_gen.World)
    (q : bulk_query_gen.QueryRef) :
  common dbConfig start end_ = bulk_query_gen.PtrTimescaleDBDevops underlying ->
  bulk_query_gen.NewTimescaleDBQuery w = (q, w1) ->
  let d := bulk_query_gen.mkHighCPU underlying hosts in
  let filled := bulk_query_gen.HighCPUForHosts underlying q scaleVar hosts w1 in
  bulk_query_gen.NewTimescaleDBDevopsHighCPU common hosts dbConfig start end_
  = Some (bulk_query_gen.PtrTimescaleDBDevopsHighCPU d)
  /\ bulk_query_gen.Dispatch d a scaleVar w
     = (q, bulk_query_gen.mkHighCPU filled.1 hosts, filled.2).
Proof.
  intros Hc Hq. cbn zeta.
  unfold bulk_query_gen.NewTimescaleDBDevopsHighCPU, bulk_query_gen.Dispatch.
  rewrite Hc, Hq. cbn.
  by destruct (bulk_query_gen.HighCPUForHosts underlying q scaleVar hosts w1).
Qed.

Lemma Dispatch_delegates_witness :
  @bulk_query_gen.Dispatch ListQueries
    (@bulk_query_gen.mkHighCPU ListQueries ("db", 0%Z, 60%Z) 8%Z)
    0%Z 100%Z ["old"]
  = (1%nat,
     @bulk_query_gen.mkHighCPU ListQueries ("db", 0%Z, 60%Z) 8%Z,
     ["old"; "high cpu, 8 of 100 hosts"]).
Proof.
  exact (proj2 (@Dispatch_delegates ListQueries
                  (fun c s e => @bulk_query_gen.PtrTimescaleDBDevops
                                  ListQueries (c, s, e))
                  8%Z "db" 0%Z 60%Z ("db", 0%Z, 60%Z) 0%Z 100%Z
                  ["old"] ["old"; ""] 1%nat eq_refl eq_refl)).
Defined.

(** C10.  [Dispatch] does not look at its first argument: the query, the
    generator and the world it leaves are the same for any two values of
    it. *)
Theorem Dispatch_ignores_first `{bulk_query_gen.Externals}
    (d : bulk_query_gen.TimescaleDBDevopsHighCPU) (a b scaleVar : Z)
    (w : bulk_query_gen.World) :
  bulk_query_gen.Dispatch d a scaleVar w
  = bulk_query_gen.Dispatch d b scaleVar w.
Proof. reflexivity. Qed.

(** * Further properties *)

(** ** Sizes and positions of the owned records *)

Lemma succ_div_mod (L n : N) :
  0 < n ->
  (L mod n + 1 < n /\ (L + 1) / n = L / n /\ (L + 1) mod n = L mod n + 1)
  \/ (L mod n + 1 = n /\ (L + 1) / n = L / n + 1 /\ (L + 1) mod n = 0).
Proof.
  intros Hn.
  assert (Hdm : L = n * (L / n) + L mod n) by (apply N.div_mod; lia).
  assert (Hlt : L mod n < n) by (apply N.mod_lt; lia).
  revert Hdm Hlt. generalize (L / n) (L mod n). intros q r Hdm Hlt.
  destruct (N.lt_ge_cases (r + 1) n) as [Hr|Hr].
  - left. split; [done|]. split.
    + symmetry. apply (N.div_unique _ _ _ (r + 1)); lia.
    + symmetry. apply (N.mod_unique _ _ q); lia.
  - right. split; [lia|]. split.
    + symmetry. apply (N.div_unique _ _ _ 0); lia.
    + symmetry. apply (N.mod_unique _ _ (q + 1)); lia.
Qed.

Lemma owned_length {A : Type} (g n : N) (recs : list A) :
  0 < n -> g < n ->
  N.of_nat (length (owned g n recs))
  = N.of_nat (length recs) / n
    + (if g <? N.of_nat (length recs) mod n then 1 else 0).
Proof.
  intros Hn Hg. induction recs as [|x recs IH] using rev_ind.
  - cbn. rewrite N.Div0.div_0_l, N.Div0.mod_0_l.
    by destruct (N.ltb_spec g 0); [lia|].
  - rewrite owned_snoc, !length_app, !Nat2N.inj_add, IH. cbn [length].
    change (N.of_nat 1) with 1.
    destruct (succ_div_mod (N.of_nat (length recs)) n Hn)
      as [(Hr & -> & ->)|(Hr & -> & ->)];
      revert Hr; generalize (N.of_nat (length recs) mod n); intros r Hr;
      destruct (N.eqb_spec r g); cbn [length];
      repeat match goal with
             | |- context [?a <? ?b] => destruct (N.ltb_spec a b)
             end; lia.
Qed.

Lemma owned_lookup {A : Type} (n : N) (recs : list A) (i : nat) (x : A) :
  0 < n ->
  recs !! i = Some x ->
  owned (N.of_nat i mod n) n recs !! N.to_nat (N.of_nat i / n) = Some x.
Proof.
  intros Hn. induction recs as [|y recs IH] using rev_ind; [done|].
  intros Hi. rewrite owned_snoc.
  destruct (decide (i < length recs)%nat) as [Hlt|Hge].
  - rewrite lookup_app_l in Hi by done.
    apply lookup_app_l_Some. by apply IH.
  - assert (i = length recs) as ->.
    { apply lookup_lt_Some in Hi. rewrite length_app in Hi. cbn in Hi. lia. }
    rewrite list_lookup_middle in Hi by done. injection Hi as ->.
    rewrite N.eqb_refl.
    apply list_lookup_middle.
    assert (Hm : N.of_nat (length recs) mod n < n) by (apply N.mod_lt; lia).
    pose proof (owned_length (N.of_nat (length recs) mod n) n recs Hn Hm)
      as Hlen.
    rewrite N.ltb_irrefl in Hlen. lia.
Qed.

Lemma owned_sublist {A : Type} (g n : N) (recs : list A) :
  owned g n recs `sublist_of` recs.
Proof.
  induction recs as [|x recs IH] using rev_ind; [done|].
  rewrite owned_snoc. apply sublist_app; [done|].
  destruct (_ =? _); [done|]. apply sublist_nil_l.
Qed.

Lemma owned_outside {A : Type} (g n : N) (recs : list A) :
  0 < n -> n <= g -> owned g n recs = [].
Proof.
  intros Hn Hg. induction recs as [|x recs IH] using rev_ind; [done|].
  rewrite owned_snoc, IH.
  assert (N.of_nat (length recs) mod n < n) by (apply N.mod_lt; lia).
  destruct (N.eqb_spec (N.of_nat (length recs) mod n) g); [lia|done].
Qed.

(** ** More on the loop *)

Section RunFacts.
Context {S T W : Type} `{!Simulator S} `{!PointSerializer T W}.

Lemma runSimulator_owned (fuel : nat) (sim0 : S) (serializer : T) (out0 : W)
    (groupID totalGroups : N) (tr : list (bool * Point)) :
  0 < totalGroups -> is_uint totalGroups ->
  simulate fuel sim0 NewPoint = Some tr ->
  runSimulator fuel sim0 serializer out0 groupID totalGroups
  = Some (serialize_all serializer
            (owned groupID totalGroups (produced tr)) out0).
Proof.
  intros Hn Hu Hsim. unfold runSimulator. rewrite owned_owned_from.
  apply (loop_owned_from serializer groupID totalGroups fuel Hn Hu
           (mkLoop sim0 NewPoint 0 out0) tr 0%nat Hsim).
  cbn. by rewrite N.Div0.mod_0_l.
Qed.

(** Without a produced record the loop returns with the sink as it was,
    whatever the groups. *)
Lemma loop_nothing_produced (serializer : T) (groupID totalGroups : N)
    (fuel : nat) :
  forall (st : Loop S W) (tr : list (bool * Point)),
    simulate fuel (sim st) (point st) = Some tr ->
    produced tr = [] ->
    loop fuel serializer groupID totalGroups st = Some (Returned (out st)).
Proof.
  induction fuel as [|fuel IH]; intros st tr Hsim Hp; [discriminate|].
  cbn [simulate] in Hsim. cbn [loop]. unfold iteration.
  destruct (Finished (sim st)); [done|].
  destruct (Next (sim st) (point st)) as [[s' p'] write].
  destruct (simulate fuel s' (Reset p')) as [tr'|] eqn:Hsim'; [|discriminate].
  injection Hsim as <-.
  destruct write; [discriminate|]. cbn [negb].
  exact (IH (mkLoop s' (Reset p') _ (out st)) tr' Hsim' Hp).
Qed.

(** The counter stays below the number of groups. *)
Lemma reaches_counter (serializer : T) (groupID totalGroups : N)
    (st0 st : Loop S W) :
  0 < totalGroups -> currGroup st0 < totalGroups ->
  reaches serializer groupID totalGroups st0 st ->
  currGroup st < totalGroups.
Proof.
  intros Hn H0. induction 1 as [|st st' _ IH Hit]; [done|].
  revert Hit. unfold iteration.
  destruct (Finished (sim st)); [discriminate|].
  destruct (Next (sim st) (point st)) as [[s' p'] write].
  destruct write; cbn [negb].
  - destruct (if currGroup st =? groupID then _ else _) as [out' [e|]];
      [discriminate|].
    unfold uint_rem. destruct (N.eqb_spec totalGroups 0); [lia|].
    intros [= <-]. cbn. apply N.mod_lt. lia.
  - by intros [= <-].
Qed.

End RunFacts.

Lemma runSimulator_RecordLog {S R : Type} `{!Simulator S}
    (fuel : nat) (sim0 : S) (encode : Point -> R) (out0 : list R)
    (groupID totalGroups : N) (tr : list (bool * Point)) :
  0 < totalGroups -> is_uint totalGroups ->
  simulate fuel sim0 NewPoint = Some tr ->
  runSimulator fuel sim0 encode out0 groupID totalGroups
  = Some (Returned
            (out0 ++ (encode <$> owned groupID totalGroups (produced tr)))%list).
Proof.
  intros Hn Hu Hsim.
  rewrite (runSimulator_owned fuel sim0 encode out0 groupID totalGroups tr)
    by done.
  by rewrite serialize_all_RecordLog.
Qed.

(** X4.  With at least one group that fits a [uint], the round-robin
    counter is below the number of groups at the start of every pass of the
    loop of [runSimulator], and the addition [currGroup + 1] does not wrap
    around. *)
Theorem counter_stays_in_range {S T W : Type}
    `{!Simulator S} `{!PointSerializer T W}
    (serializer : T) (groupID totalGroups : N) (sim0 : S) (out0 : W)
    (st : Loop S W) :
  1 <= totalGroups -> is_uint totalGroups ->
  reaches serializer groupID totalGroups
    {| sim := sim0; point := NewPoint; currGroup := 0; out := out0 |} st ->
  currGroup st < totalGroups
  /\ uint_add (currGroup st) 1 = currGroup st + 1.
Proof.
  intros Hn Hu Hr.
  assert (Hc : currGroup st < totalGroups).
  { apply (reaches_counter serializer groupID totalGroups _ st) in Hr;
      [done|lia|cbn; lia]. }
  split; [done|]. unfold uint_add, is_uint in *. apply N.mod_small. lia.
Qed.

Lemma counter_stays_in_range_witness :
  currGroup (mkLoop {| script := [None]; schema := ∅ |} (Reset (named "a"))
               1 ["a"]) < 2
  /\ uint_add 1 1 = 1 + 1.
Proof.
  apply (counter_stays_in_range measurementName 0 2
           {| script := [Some (named "a"); None]; schema := ∅ |} []).
  - lia.
  - reflexivity.
  - eapply reaches_next; [apply reaches_start|]. reflexivity.
Defined.

(** X5.  When the simulator finishes without having produced a record,
    [runSimulator] returns with the sink as it was, whatever the group id
    and the number of groups, zero included: the division is not
    reached. *)
Theorem nothing_produced_nothing_written {S T W : Type}
    `{!Simulator S} `{!PointSerializer T W}
    (fuel : nat) (sim0 : S) (serializer : T) (out0 : W)
    (groupID totalGroups : N) (tr : list (bool * Point)) :
  simulate fuel sim0 NewPoint = Some tr ->
  produced tr = [] ->
  runSimulator fuel sim0 serializer out0 groupID totalGroups
  = Some (Returned out0).
Proof.
  intros Hsim Hp.
  exact (loop_nothing_produced serializer groupID totalGroups fuel
           (mkLoop sim0 NewPoint 0 out0) tr Hsim Hp).
Qed.

Lemma nothing_produced_nothing_written_witness :
  runSimulator 3 {| script := [None; None]; schema := ∅ |}
    measurementName ["kept"] 0 0
  = Some (Returned ["kept"]).
Proof.
  apply (nothing_produced_nothing_written 3
           {| script := [None; None]; schema := ∅ |} measurementName
           ["kept"] 0 0 [(false, NewPoint); (false, NewPoint)]);
    reflexivity.
Defined.

(** X6.  Called with a group id that is not below the number of groups
    (what [validateGroups] keeps from happening), [runSimulator] runs the
    simulator to its end, never calls the serializer and returns with the
    sink as it was. *)
Theorem group_out_of_range_writes_nothing {S T W : Type}
    `{!Simulator S} `{!PointSerializer T W}
    (fuel : nat) (sim0 : S) (serializer : T) (out0 : W)
    (groupID totalGroups : N) (tr : list (bool * Point)) :
  1 <= totalGroups -> is_uint totalGroups -> totalGroups <= groupID ->
  simulate fuel sim0 NewPoint = Some tr ->
  runSimulator fuel sim0 serializer out0 groupID totalGroups
  = Some (Returned out0).
Proof.
  intros Hn Hu Hg Hsim.
  rewrite (runSimulator_owned fuel sim0 serializer out0 groupID totalGroups tr)
    by (done || lia).
  by rewrite owned_outside by lia.
Qed.

Lemma group_out_of_range_writes_nothing_witness :
  runSimulator 7 sc measurementName [] 2 2 = Some (Returned []).
Proof.
  apply (group_out_of_range_writes_nothing 7 sc measurementName [] 2 2
           (default [] (simulate 7 sc NewPoint)));
    [lia | reflexivity | lia | reflexivity].
Defined.

(** X7.  With [L] produced records and [n] groups, the run for group [g]
    writes [L / n] records, and one more when [g < L mod n]: the groups
    differ by at most one record.  (For a serializer that appends one record
    per call to a sink that does not fail.) *)
Theorem group_sizes_balanced {S R : Type} `{!Simulator S}
    (fuel : nat) (sim0 : S) (encode : Point -> R) (groupID totalGroups : N)
    (tr : list (bool * Point)) :
  1 <= totalGroups -> is_uint totalGroups -> groupID < totalGroups ->
  simulate fuel sim0 NewPoint = Some tr ->
  exists part : list R,
    returned (runSimulator fuel sim0 encode [] groupID totalGroups)
    = Some part
    /\ N.of_nat (length part)
       = N.of_nat (length (produced tr)) / totalGroups
         + (if groupID <? N.of_nat (length (produced tr)) mod totalGroups
            then 1 else 0).
Proof.
  intros Hn Hu Hg Hsim. eexists. split.
  - rewrite (runSimulator_RecordLog fuel sim0 encode [] groupID totalGroups tr)
      by (done || lia).
    reflexivity.
  - rewrite app_nil_l, length_fmap. apply owned_length; [lia|done].
Qed.

Lemma group_sizes_balanced_witness :
  exists part : list string,
    returned (runSimulator 7 sc measurementName [] 1 3) = Some part
    /\ N.of_nat (length part)
       = N.of_nat (length (produced (default [] (simulate 7 sc NewPoint)))) / 3
         + (if 1 <? N.of_nat (length (produced
                                        (default [] (simulate 7 sc NewPoint))))
                    mod 3
            then 1 else 0).
Proof.
  apply (group_sizes_balanced 7 sc measurementName 1 3
           (default [] (simulate 7 sc NewPoint)));
    [lia | reflexivity | lia | reflexivity].
Defined.

(** X8.  The record at position [i] of the output of the single-group run
    is the record at position [i / n] of the output of the run for group
    [i mod n]: taking the outputs of the groups in turn gives back the
    single-group output in its order.  (For a serializer that appends one
    record per call to a sink that does not fail.) *)
Theorem round_robin_merge {S R : Type} `{!Simulator S}
    (fuel : nat) (sim0 : S) (encode : Point -> R) (totalGroups : N)
    (tr : list (bool * Point)) :
  1 <= totalGroups -> is_uint totalGroups ->
  simulate fuel sim0 NewPoint = Some tr ->
  exists whole : list R,
    returned (runSimulator fuel sim0 encode [] 0 1) = Some whole
    /\ forall (i : nat) (x : R),
         whole !! i = Some x ->
         exists part : list R,
           returned (runSimulator fuel sim0 encode []
                       (N.of_nat i mod totalGroups) totalGroups)
           = Some part
           /\ part !! N.to_nat (N.of_nat i / totalGroups) = Some x.
Proof.
  intros Hn Hu Hsim. exists (encode <$> produced tr). split.
  - rewrite (runSimulator_RecordLog fuel sim0 encode [] 0 1 tr)
      by (done || lia).
    cbn. by rewrite owned_whole.
  - intros i x Hi.
    exists (encode <$> owned (N.of_nat i mod totalGroups) totalGroups
                         (produced tr)).
    split.
    + by rewrite (runSimulator_RecordLog fuel sim0 encode [] _ totalGroups tr)
        by (done || lia).
    + rewrite list_lookup_fmap in Hi |- *.
      destruct (produced tr !! i) as [p|] eqn:Hp; [|done].
      rewrite (owned_lookup totalGroups (produced tr) i p) by (done || lia).
      done.
Qed.

Lemma round_robin_merge_witness :
  exists whole : list string,
    returned (runSimulator 7 sc measurementName [] 0 1) = Some whole
    /\ forall (i : nat) (x : string),
         whole !! i = Some x ->
         exists part : list string,
           returned (runSimulator 7 sc measurementName []
                       (N.of_nat i mod 2) 2)
           = Some part
           /\ part !! N.to_nat (N.of_nat i / 2) = Some x.
Proof.
  apply (round_robin_merge 7 sc measurementName 2
           (default [] (simulate 7 sc NewPoint)));
    [lia | reflexivity | reflexivity].
Defined.

(** X9.  The output of the run for a group is the output of the
    single-group run with records left out: what a group writes is in
    generation order.  (For a serializer that appends one record per call to
    a sink that does not fail.) *)
Theorem group_output_in_generation_order {S R : Type} `{!Simulator S}
    (fuel : nat) (sim0 : S) (encode : Point -> R) (groupID totalGroups : N)
    (tr : list (bool * Point)) :
  1 <= totalGroups -> is_uint totalGroups ->
  simulate fuel sim0 NewPoint = Some tr ->
  exists part whole : list R,
    returned (runSimulator fuel sim0 encode [] groupID totalGroups)
    = Some part
    /\ returned (runSimulator fuel sim0 encode [] 0 1) = Some whole
    /\ part `sublist_of` whole.
Proof.
  intros Hn Hu Hsim.
  exists (encode <$> owned groupID totalGroups (produced tr)),
         (encode <$> produced tr).
  split; [|split].
  - by rewrite (runSimulator_RecordLog fuel sim0 encode [] _ totalGroups tr)
      by (done || lia).
  - rewrite (runSimulator_RecordLog fuel sim0 encode [] 0 1 tr)
      by (done || lia).
    cbn. by rewrite owned_whole.
  - apply fmap_sublist, owned_sublist.
Qed.

Lemma group_output_in_generation_order_witness :
  exists part whole : list string,
    returned (runSimulator 7 sc measurementName [] 1 2) = Some part
    /\ returned (runSimulator 7 sc measurementName [] 0 1) = Some whole
    /\ part `sublist_of` whole.
Proof.
  apply (group_output_in_generation_order 7 sc measurementName 1 2
           (default [] (simulate 7 sc NewPoint)));
    [lia | reflexivity | reflexivity].
Defined.

(** X10.  [runSimulator] sees of the simulator only the records it
    produces: two simulators that produce the same records, with calls of
    [Next] that produce nothing placed differently, lead to the same
    result for every group. *)
Theorem skipped_iterations_do_not_shift {S1 S2 T W : Type}
    `{!Simulator S1} `{!Simulator S2} `{!PointSerializer T W}
    (fuel1 fuel2 : nat) (sim1 : S1) (sim2 : S2) (serializer : T) (out0 : W)
    (groupID totalGroups : N) (tr1 tr2 : list (bool * Point)) :
  1 <= totalGroups -> is_uint totalGroups ->
  simulate fuel1 sim1 NewPoint = Some tr1 ->
  simulate fuel2 sim2 NewPoint = Some tr2 ->
  produced tr1 = produced tr2 ->
  runSimulator fuel1 sim1 serializer out0 groupID totalGroups
  = runSimulator fuel2 sim2 serializer out0 groupID totalGroups.
Proof.
  intros Hn Hu H1 H2 Hp.
  rewrite (runSimulator_owned fuel1 sim1 serializer out0 _ _ tr1)
    by (done || lia).
  rewrite (runSimulator_owned fuel2 sim2 serializer out0 _ _ tr2)
    by (done || lia).
  by rewrite Hp.
Qed.

Lemma skipped_iterations_do_not_shift_witness :
  runSimulator 7 sc measurementName [] 1 2
  = runSimulator 5
      {| script := Some ∘ named <$> ["a"; "b"; "c"; "d"]; schema := ∅ |}
      measurementName [] 1 2.
Proof.
  apply (skipped_iterations_do_not_shift 7 5 sc _ measurementName [] 1 2
           (default [] (simulate 7 sc NewPoint))
           (default [] (simulate 5
              {| script := Some ∘ named <$> ["a"; "b"; "c"; "d"];
                 schema := ∅ |} NewPoint)));
    [lia | reflexivity | reflexivity | reflexivity | reflexivity].
Defined.

(** ** More on the whole run *)

Lemma verbFree_app (a b : string) :
  verbFree (a ++ b) = verbFree a && verbFree b.
Proof.
  induction a as [|c a IH]; [done|].
  change (verbFree (String c (a ++ b))
          = verbFree (String c a) && verbFree b).
  cbn [verbFree]. rewrite IH. by rewrite andb_assoc.
Qed.

Lemma verbFree_uint (d : Decimal.uint) :
  verbFree (NilEmpty.string_of_uint d) = true.
Proof. induction d; cbn; done. Qed.

Lemma verbFree_fmt_d (n : N) : verbFree (fmt_d n) = true.
Proof.
  unfold fmt_d, NilZero.string_of_uint.
  destruct (N.to_uint n); try apply verbFree_uint; done.
Qed.

Section MoreMainFacts.
Context `{Externals}.

Lemma getConfig_known (o : Options) (useCase : string) :
  useCase ∈ useCaseChoices -> exists cfg, getConfig o useCase = Ok cfg.
Proof.
  unfold useCaseChoices, getConfig. rewrite !elem_of_cons.
  intros [->|[->|[->|Hn]]]; [by eexists..|]. by apply elem_of_nil in Hn.
Qed.

Lemma getSerializer_known (sim : SimState) (format : string) (out : Writer)
    (order : gmap string (list string) -> list string) :
  validateFormat format = true ->
  exists ser header,
    getSerializer sim format out order = Ok (ser, out ++ header)
    /\ (format <> formatTimescaleDB -> header = "").
Proof.
  unfold validateFormat, formatChoices, getSerializer. cbn [validateFormat_in].
  rewrite !(String.eqb_sym _ format).
  destruct (String.eqb format formatCassandra).
  { intros _. exists CassandraSerializer, "". by rewrite string_app_nil_r. }
  destruct (String.eqb format formatInflux).
  { intros _. exists InfluxSerializer, "". by rewrite string_app_nil_r. }
  destruct (String.eqb format formatMongo).
  { intros _. exists MongoSerializer, "". by rewrite string_app_nil_r. }
  destruct (String.eqb_spec format formatTimescaleDB); [|discriminate].
  intros _. eexists _, _. split.
  - rewrite writeMeasurements_spec, writeCommaSeparated_spec.
    unfold WriteString. rewrite !string_app_assoc. reflexivity.
  - intros Hne. by destruct Hne.
Qed.

Lemma getSerializer_unknown (sim : SimState) (format : string) (out : Writer)
    (order : gmap string (list string) -> list string) :
  validateFormat format = false ->
  getSerializer sim format out order = Die (errUnknownFormat format).
Proof.
  unfold validateFormat, formatChoices, getSerializer. cbn [validateFormat_in].
  rewrite !(String.eqb_sym _ format).
  repeat (destruct (String.eqb format _); [discriminate|]). done.
Qed.

End MoreMainFacts.

(** X1.  [validateFormat] accepts exactly the four format names, and
    [getSerializer] returns a serializer exactly for the formats that
    [validateFormat] accepts; for the others it ends in [fatal] with the
    message of the unknown format.  So after the check in [main] the
    default case of [getSerializer] is not taken. *)
Theorem getSerializer_agrees_with_validateFormat `{Externals}
    (sim : SimState) (format : string) (out : Writer)
    (order : gmap string (list string) -> list string) :
  (validateFormat format = true <-> format ∈ formatChoices)
  /\ ((exists r, getSerializer sim format out order = Ok r)
      <-> validateFormat format = true)
  /\ (validateFormat format = false ->
      getSerializer sim format out order = Die (errUnknownFormat format)).
Proof.
  split; [apply validateFormat_spec|]. split; [|apply getSerializer_unknown].
  split.
  - intros [r Hr]. destruct (validateFormat format) eqn:Hv; [done|].
    by rewrite getSerializer_unknown in Hr.
  - intros Hv.
    destruct (getSerializer_known sim format out order Hv)
      as (ser & header & Hg & _).
    by eexists.
Qed.

Lemma getSerializer_agrees_with_validateFormat_witness :
  @getSerializer ScriptedExternals {| script := []; schema := ∅ |}
    "csv" "" (rangeOrder envA)
  = Die (errUnknownFormat "csv").
Proof.
  apply (proj2 (proj2 (@getSerializer_agrees_with_validateFormat
                         ScriptedExternals {| script := []; schema := ∅ |}
                         "csv" "" (rangeOrder envA)))).
  reflexivity.
Defined.

(** X2.  For a configuration that passes the checks (group id below the
    number of groups, a known format, a known use case, no failure to
    create a profile file), [getConfig] and [getSerializer] succeed, the
    header is empty unless the format is [timescaledb], and when the
    simulator finishes [main] ends as if the serializer of the format had
    been handed, after the header, the produced records owned by the
    group, in order. *)
Theorem main_valid_run `{Externals}
    (fuel : nat) (env : Env) (o : Options) :
  interleavedGenerationGroupID o < interleavedGenerationGroups o ->
  is_uint (interleavedGenerationGroups o) ->
  format o ∈ formatChoices ->
  profileFile o = "" \/ createProfile env = None ->
  useCase o ∈ useCaseChoices ->
  exists (cfg : SimulatorConfig Time) (ser : serializer) (header : Writer),
    getConfig o (useCase o) = Ok cfg
    /\ getSerializer (ToSimulator cfg (logInterval o) (seed o)) (format o)
         NewWriter (rangeOrder env) = Ok (ser, header)
    /\ (format o <> formatTimescaleDB -> header = "")
    /\ forall tr : list (bool * Point),
         simulate fuel (ToSimulator cfg (logInterval o) (seed o)) NewPoint
         = Some tr ->
         main fuel env o
         = Some (serialize_all ser
                   (owned (interleavedGenerationGroupID o)
                      (interleavedGenerationGroups o) (produced tr))
                   header).
Proof.
  intros Hlt Hu Hf Hp Hc.
  destruct (getConfig_known o (useCase o) Hc) as [cfg Hcfg].
  destruct (getSerializer_known (ToSimulator cfg (logInterval o) (seed o))
              (format o) NewWriter (rangeOrder env))
    as (ser & header & Hg & Hh); [by apply validateFormat_spec|].
  exists cfg, ser, header. split; [done|]. split; [exact Hg|].
  split; [done|]. intros tr Hsim.
  rewrite (main_checked fuel env o Hlt Hf Hp), Hcfg. cbn zeta.
  change (NewWriter ++ header) with header in Hg. rewrite Hg.
  apply runSimulator_owned; [lia|done|done].
Qed.

Lemma main_valid_run_witness :
  exists (cfg : SimulatorConfig (@Time ScriptedExternals))
         (ser : serializer) (header : Writer),
    @getConfig ScriptedExternals
      (optionsOf formatInflux useCaseCPUSingle 0 1) useCaseCPUSingle = Ok cfg
    /\ @getSerializer ScriptedExternals
         (@ToSimulator ScriptedExternals cfg 10000000000%Z 42%Z)
         formatInflux NewWriter (rangeOrder envA) = Ok (ser, header)
    /\ (formatInflux <> formatTimescaleDB -> header = "")
    /\ forall tr : list (bool * Point),
         simulate 7 (@ToSimulator ScriptedExternals cfg 10000000000%Z 42%Z)
           NewPoint = Some tr ->
         @main ScriptedExternals 7 envA
           (optionsOf formatInflux useCaseCPUSingle 0 1)
         = Some (@serialize_all _ _ Line_PointSerializer ser
                   (owned 0 1 (produced tr)) header).
Proof.
  apply (@main_valid_run ScriptedExternals 7 envA
           (optionsOf formatInflux useCaseCPUSingle 0 1)).
  - reflexivity.
  - reflexivity.
  - compute_done.
  - left. reflexivity.
  - compute_done.
Defined.

(** X3.  The result of [getSerializer], header included, is the same for
    any two orders in which [range] may walk the map of the fields: the
    keys are sorted so that the header does not depend on it. *)
Theorem header_independent_of_map_order `{Externals}
    (sim : SimState) (format : string) (out : Writer)
    (order1 order2 : gmap string (list string) -> list string) :
  order1 (Fields sim) ≡ₚ elements (dom (Fields sim)) ->
  order2 (Fields sim) ≡ₚ elements (dom (Fields sim)) ->
  getSerializer sim format out order1 = getSerializer sim format out order2.
Proof. apply getSerializer_order. Qed.

Lemma header_independent_of_map_order_witness :
  @getSerializer ScriptedExternals
    (@ToSimulator ScriptedExternals
       (DevopsSimulatorConfig (mkConfigFields "" "" 1 1 NewHost)) 0%Z 1%Z)
    formatTimescaleDB NewWriter (rangeOrder envA)
  = @getSerializer ScriptedExternals
      (@ToSimulator ScriptedExternals
         (DevopsSimulatorConfig (mkConfigFields "" "" 1 1 NewHost)) 0%Z 1%Z)
      formatTimescaleDB NewWriter (rangeOrder envB).
Proof.
  apply (@header_independent_of_map_order ScriptedExternals).
  - reflexivity.
  - apply reverse_Permutation.
Defined.

(** X13.  A time stamp that does not parse ends the process in [fatal]
    with the error of the parser and nothing written, before any check of
    [main] is made; the start is parsed before the end. *)
Theorem bad_timestamp_is_fatal `{Externals}
    (fuel : nat) (env : Env) (fl : Flags) (e : string) :
  (parseRFC3339 (timestampStartStr (pfv fl)) = inr e ->
   program fuel env fl = Some (Fatal e NewWriter))
  /\ (forall t : Time,
        parseRFC3339 (timestampStartStr (pfv fl)) = inl t ->
        parseRFC3339 (timestampEndStr (pfv fl)) = inr e ->
        program fuel env fl = Some (Fatal e NewWriter)).
Proof.
  unfold program, postFlagParse, parseTimeFromString. split.
  - by intros ->.
  - by intros t -> ->.
Qed.

Lemma bad_timestamp_is_fatal_witness :
  @program ScriptedExternals 0 envA badStart
  = Some (Fatal "cannot parse" NewWriter).
Proof.
  apply (proj1 (@bad_timestamp_is_fatal ScriptedExternals 0 envA badStart
                  "cannot parse")).
  reflexivity.
Defined.

(** X11.  A run without [-seed] (seed 0) that reads a non-zero value from
    the clock ends as the run with that value given as [-seed]: the seed
    that the process reports reproduces the run. *)
Theorem printed_seed_reproduces_run `{Externals}
    (fuel : nat) (env env' : Env) (fl : Flags) :
  flag_seed (pfv fl) = 0%Z -> nowNanosecond env <> 0%Z ->
  range_ok env -> range_ok env' ->
  (flag_profileFile fl <> "" -> createProfile env = createProfile env') ->
  program fuel env fl = program fuel env' (withSeed fl (nowNanosecond env)).
Proof.
  intros Hz Hnz Hr Hr' Hp. unfold program.
  assert (Hpost : postFlagParse env fl
                  = postFlagParse env' (withSeed fl (nowNanosecond env))).
  { unfold postFlagParse, withSeed. cbn. rewrite Hz. cbn.
    by destruct (Z.eqb_spec (nowNanosecond env) 0). }
  rewrite <- Hpost.
  destruct (postFlagParse env fl) as [o|msg] eqn:Ho; [|done].
  apply main_env; [done|done|].
  destruct (postFlagParse_keeps env fl o Ho) as (_ & _ & -> & _). done.
Qed.

Lemma printed_seed_reproduces_run_witness :
  @program ScriptedExternals 7 envA
    (flagsOf 0 formatInflux useCaseCPUSingle 0 1)
  = @program ScriptedExternals 7 envB
      (withSeed (flagsOf 0 formatInflux useCaseCPUSingle 0 1) 5).
Proof.
  apply (@printed_seed_reproduces_run ScriptedExternals 7 envA envB
           (flagsOf 0 formatInflux useCaseCPUSingle 0 1)).
  - reflexivity.
  - discriminate.
  - intros m. reflexivity.
  - intros m. apply reverse_Permutation.
  - intros Hne. exfalso. apply Hne. reflexivity.
Defined.

(** X12.  A run with [-initial-scale-var] at 0 ends as the run with
    [-initial-scale-var] set to the value of [-scale-var]. *)
Theorem initial_scale_defaults_to_scale `{Externals}
    (fuel : nat) (env : Env) (fl : Flags) :
  flag_initScaleVar (pfv fl) = 0 ->
  program fuel env fl
  = program fuel env (withInitScaleVar fl (flag_scaleVar fl)).
Proof.
  intros Hz. unfold program.
  assert (Hpost : postFlagParse env fl
                  = postFlagParse env (withInitScaleVar fl (flag_scaleVar fl))).
  { unfold postFlagParse, withInitScaleVar. cbn. rewrite Hz. cbn.
    by destruct (flag_scaleVar fl =? 0). }
  by rewrite <- Hpost.
Qed.

Lemma initial_scale_defaults_to_scale_witness :
  @program ScriptedExternals 7 envA
    (flagsOf 42 formatInflux useCaseCPUSingle 0 1)
  = @program ScriptedExternals 7 envA
      (withInitScaleVar (flagsOf 42 formatInflux useCaseCPUSingle 0 1) 1).
Proof.
  apply (@initial_scale_defaults_to_scale ScriptedExternals 7 envA
           (flagsOf 42 formatInflux useCaseCPUSingle 0 1)).
  reflexivity.
Defined.

(** X14.  No error message of [validateGroups] holds the character ["%"];
    [main] hands the message to [fatal] as the format string, which
    therefore prints it as it is. *)
Theorem validateGroups_message_verb_free (groupID totalGroups : N)
    (e : string) :
  (validateGroups groupID totalGroups).2 = Some e -> verbFree e = true.
Proof.
  unfold validateGroups.
  destruct (totalGroups =? 0); [by intros [= <-]|].
  destruct (totalGroups <=? groupID); [|discriminate].
  intros [= <-]. unfold errInvalidGroups.
  by rewrite !verbFree_app, !verbFree_fmt_d.
Qed.

Lemma validateGroups_message_verb_free_witness :
  verbFree "incorrect interleaved groups configuration: id 7 >= total groups 4"
  = true.
Proof. apply (validateGroups_message_verb_free 7 4). reflexivity. Defined.

(** X15.  Calls of [Dispatch] leave the field [hosts] of the generator as
    it was when the generator was built, so every call hands that same
    number of hosts to [HighCPUForHosts], on the query that the pool has
    just given. *)
Theorem Dispatch_keeps_hosts `{bulk_query_gen.Externals}
    (d0 d : bulk_query_gen.TimescaleDBDevopsHighCPU)
    (w0 w : bulk_query_gen.World) (a scaleVar : Z) :
  dispatched d0 w0 d w ->
  bulk_query_gen.hosts d = bulk_query_gen.hosts d0
  /\ (bulk_query_gen.Dispatch d a scaleVar w).2
     = (bulk_query_gen.HighCPUForHosts (bulk_query_gen.embedded d)
          (bulk_query_gen.NewTimescaleDBQuery w).1 scaleVar
          (bulk_query_gen.hosts d0)
          (bulk_query_gen.NewTimescaleDBQuery w).2).2.
Proof.
  intros Hd.
  assert (Hh : bulk_query_gen.hosts d = bulk_query_gen.hosts d0).
  { induction Hd as [|d w a' s' _ IH]; [done|].
    rewrite <- IH. unfold bulk_query_gen.Dispatch.
    destruct (bulk_query_gen.NewTimescaleDBQuery w) as [q w1].
    by destruct (bulk_query_gen.HighCPUForHosts _ _ _ _ _). }
  split; [done|]. rewrite <- Hh. unfold bulk_query_gen.Dispatch.
  destruct (bulk_query_gen.NewTimescaleDBQuery w) as [q w1]. cbn.
  by destruct (bulk_query_gen.HighCPUForHosts _ _ _ _ _).
Qed.

Lemma Dispatch_keeps_hosts_witness :
  bulk_query_gen.hosts
    (@bulk_query_gen.Dispatch ListQueries eightHosts 0%Z 100%Z ["old"]).1.2
  = 8%Z
  /\ (@bulk_query_gen.Dispatch ListQueries
        (@bulk_query_gen.Dispatch ListQueries eightHosts 0%Z 100%Z ["old"]).1.2
        1%Z 50%Z
        (@bulk_query_gen.Dispatch ListQueries eightHosts 0%Z 100%Z ["old"]).2).2
     = ["old"; "high cpu, 8 of 100 hosts"; "high cpu, 8 of 50 hosts"].
Proof.
  exact (@Dispatch_keeps_hosts ListQueries eightHosts
           (@bulk_query_gen.Dispatch ListQueries eightHosts 0%Z 100%Z
              ["old"]).1.2
           ["old"]
           (@bulk_query_gen.Dispatch ListQueries eightHosts 0%Z 100%Z
              ["old"]).2
           1%Z 50%Z
           (@dispatched_call ListQueries eightHosts ["old"] eightHosts
              ["old"] 0%Z 100%Z
              (@dispatched_none ListQueries eightHosts ["old"]))).
Defined.
